(** * Adaptive testing engine: a shallow embedding of
      [app/utils/adaptive_algorithm.py] and of
      [Question.update_psychometrics] from [app/models/question.py].

    Modelling conventions.
    - Python [float] values are idealised as the real numbers [R];
      [math.exp] is [exp] and [math.sqrt] is [sqrt] on its domain.
      Rounding and overflow are outside this model: a call returns in
      the model whenever its real divisors are non-zero, while in
      floating point [P] can round to exactly [0] or [1] (and
      [math.exp] can overflow), so that the call raises.  The
      statements below therefore say what a call returns when it
      returns, and where it raises also over the reals.
    - A Python exception is a value [Raise e] of the error monad
      [result]; float division raises [ZeroDivisionError] on a zero
      divisor, [math.sqrt] raises [ValueError] on a negative argument,
      and reading an unbound global raises [NameError].
    - A dict is a record holding the keys the code reads, each of them
      optional; [d.get(k, default)] is [get_or].
    - [for ... in range(n)] is a structurally recursive loop on [n]. *)

From Stdlib Require Import Reals Lra Lia ZArith String Bool Arith List.
From Stdlib Require Import Permutation Sorted DecimalString DecimalNat.
Import ListNotations.

Open Scope R_scope.

(** ** Exceptions and the error monad *)

Inductive exn : Type :=
| ZeroDivisionError
| ValueError
| NameError (name : string).

Inductive result (A : Type) : Type :=
| Ok (a : A)
| Raise (e : exn).

Arguments Ok {A} a.
Arguments Raise {A} e.

Definition bind {A B : Type} (m : result A) (k : A -> result B) : result B :=
  match m with
  | Ok a => k a
  | Raise e => Raise e
  end.

Notation "x <- m ;; k" := (bind m (fun x => k))
  (at level 61, m at next level, right associativity).

(** [x / y] on Python floats (and true division of ints). *)
Definition pdiv (x y : R) : result R :=
  if Req_dec_T y 0 then Raise ZeroDivisionError else Ok (x / y).

(** [math.sqrt(x)]. *)
Definition psqrt (x : R) : result R :=
  if Rlt_dec x 0 then Raise ValueError else Ok (sqrt x).

(** [d.get(key, default)] for a key that may be absent. *)
Definition get_or {A : Type} (field : option A) (default : A) : A :=
  match field with
  | Some v => v
  | None => default
  end.

(** ** Data model: the dicts handled by the algorithm *)

(** A question dict, restricted to the keys read by the algorithm. *)
Record Question : Type := mkQuestion {
  id : option string;
  discrimination : option R;
  difficulty : option R;
  guessing : option R;
  upper_asymptote : option R;
  difficulty_score : option R
}.

(** A response dict. *)
Record Response : Type := mkResponse {
  is_correct : option bool;
  user_ability : option R
}.

(** A Python bool used in float arithmetic. *)
Definition bool_to_R (b : bool) : R := if b then 1 else 0.

(** [response.get('is_correct', 0)] as a number. *)
Definition correct_value (r : Response) : R :=
  match is_correct r with
  | Some b => bool_to_R b
  | None => 0
  end.

(** [self.termination_criteria]. *)
Record TerminationCriteria : Type := mkCriteria {
  max_questions : Z;
  min_questions : Z;
  standard_error_threshold : R;
  confidence_threshold : R
}.

(** The instance state of [AdaptiveAlgorithm]. *)
Record AdaptiveAlgorithm : Type := mkAlgorithm {
  ability_estimation_method : string;
  question_selection_strategy : string;
  termination_criteria : TerminationCriteria
}.

(** [AdaptiveAlgorithm.__init__]. *)
Definition init : AdaptiveAlgorithm :=
  {| ability_estimation_method := "IRT"%string;
     question_selection_strategy := "maximum_information"%string;
     termination_criteria :=
       {| max_questions := 50;
          min_questions := 10;
          standard_error_threshold := 0.3;
          confidence_threshold := 0.95 |} |}.

(** ** [estimate_ability] *)

Definition max_iterations : nat := 50.
Definition tolerance : R := 0.001.

(** The probability of a correct response computed in the loop body:
    [p = c + (d - c) / (1 + math.exp(-z))] with [z = a * (theta - b)]. *)
Definition probability (a b c d theta : R) : result R :=
  let z := a * (theta - b) in
  t <- pdiv (d - c) (1 + exp (- z)) ;;
  Ok (c + t).

(** The body of the inner loop for one (response, question) pair:
    the pair ([first_deriv], [second_deriv]). *)
Definition item_derivatives (theta : R) (response : Response) (question : Question)
  : result (R * R) :=
  let a := get_or (discrimination question) 0.5 in
  let b := get_or (difficulty question) 0.5 in
  let c := get_or (guessing question) 0.25 in
  let d := get_or (upper_asymptote question) 1.0 in
  p <- probability a b c d theta ;;
  let pq := p * (1 - p) in
  first_deriv <- pdiv (a * (correct_value response - p) * (d - c)) pq ;;
  second_deriv <- pdiv (- a * a * (d - c) * (d - c)) (pq * pq) ;;
  Ok (first_deriv, second_deriv).

(** The inner loop [for i, response in enumerate(responses)], started at
    index [i] with the accumulators [acc]; a response whose index is not
    below [len(questions)] is skipped. *)
Fixpoint accumulate_derivatives (theta : R) (questions : list Question)
    (i : nat) (responses : list Response) (acc : R * R) : result (R * R) :=
  match responses with
  | [] => Ok acc
  | response :: rest =>
      if (List.length questions <=? i)%nat then
        accumulate_derivatives theta questions (S i) rest acc
      else
        match nth_error questions i with
        | None => accumulate_derivatives theta questions (S i) rest acc
        | Some question =>
            t <- item_derivatives theta response question ;;
            accumulate_derivatives theta questions (S i) rest
              (fst acc + fst t, snd acc + snd t)
        end
  end.

(** One pass of the inner loop from [first_derivative = 0.0] and
    [second_derivative = 0.0]. *)
Definition derivatives (theta : R) (responses : list Response)
    (questions : list Question) : result (R * R) :=
  accumulate_derivatives theta questions 0 responses (0, 0).

(** The outer loop [for iteration in range(max_iterations)] with the
    remaining number of iterations as its first argument.  Both [break]s
    and the exhaustion of the range fall through to [return theta]. *)
Fixpoint newton_loop (remaining : nat) (theta : R) (responses : list Response)
    (questions : list Question) : result R :=
  match remaining with
  | O => Ok theta
  | S remaining' =>
      ds <- derivatives theta responses questions ;;
      let first_derivative := fst ds in
      let second_derivative := snd ds in
      if Rlt_dec (Rabs second_derivative) tolerance then Ok theta
      else
        step <- pdiv first_derivative second_derivative ;;
        let new_theta := theta - step in
        if Rlt_dec (Rabs (new_theta - theta)) tolerance then Ok theta
        else newton_loop remaining' new_theta responses questions
  end.

Definition estimate_ability (responses : list Response)
    (questions : list Question) : result R :=
  match responses with
  | [] => Ok 0
  | _ :: _ => newton_loop max_iterations 0 responses questions
  end.

(** ** [calculate_information] *)

Definition calculate_information (theta : R) (question : Question) : result R :=
  let a := get_or (discrimination question) 0.5 in
  let b := get_or (difficulty question) 0.5 in
  let c := get_or (guessing question) 0.25 in
  let d := get_or (upper_asymptote question) 1.0 in
  p <- probability a b c d theta ;;
  pdiv (a * a * (d - c) * (d - c)) (p * (1 - p)).

(** ** [select_next_question] *)

(** [q.get('id') not in answered_questions]: an absent id is [None],
    which is never a member of a list of strings. *)
Definition not_answered (answered_questions : list string) (q : Question) : bool :=
  match id q with
  | Some i => negb (existsb (String.eqb i) answered_questions)
  | None => true
  end.

(** The loop of the [maximum_information] branch, from the state
    ([best_question], [max_information]). *)
Fixpoint max_information_loop (current_ability : R) (unanswered : list Question)
    (best_question : option Question) (max_information : R)
  : result (option Question) :=
  match unanswered with
  | [] => Ok best_question
  | question :: rest =>
      information <- calculate_information current_ability question ;;
      if Rgt_dec information max_information
      then max_information_loop current_ability rest (Some question) information
      else max_information_loop current_ability rest best_question max_information
  end.

(** The loop of the [closest_difficulty] branch; [min_distance = None]
    stands for [float('inf')]. *)
Fixpoint closest_difficulty_loop (current_ability : R) (unanswered : list Question)
    (best_question : option Question) (min_distance : option R)
  : option Question :=
  match unanswered with
  | [] => best_question
  | question :: rest =>
      let difficulty := get_or (difficulty_score question) 50 in
      let distance := Rabs (difficulty - current_ability) in
      let closer :=
        match min_distance with
        | None => true
        | Some m => if Rlt_dec distance m then true else false
        end in
      if closer
      then closest_difficulty_loop current_ability rest (Some question) (Some distance)
      else closest_difficulty_loop current_ability rest best_question min_distance
  end.

(** The module imports [math], [typing] and [numpy] only: the global
    [random] read by the fallback branch is unbound. *)
Definition random_choice (unanswered : list Question) : result (option Question) :=
  Raise (NameError "random").

Definition select_next_question (self : AdaptiveAlgorithm) (current_ability : R)
    (available_questions : list Question) (answered_questions : list string)
  : result (option Question) :=
  match available_questions with
  | [] => Ok None
  | _ :: _ =>
      let unanswered := filter (not_answered answered_questions) available_questions in
      match unanswered with
      | [] => Ok None
      | _ :: _ =>
          if String.eqb (question_selection_strategy self) "maximum_information" then
            max_information_loop current_ability unanswered None 0
          else if String.eqb (question_selection_strategy self) "closest_difficulty" then
            Ok (closest_difficulty_loop current_ability unanswered None None)
          else
            random_choice unanswered
      end
  end.

(** ** [calculate_standard_error] *)

(** The loop summing the information of the questions paired with a
    response, from index [i] and the partial sum [information_sum]. *)
Fixpoint information_loop (theta : R) (questions : list Question)
    (i : nat) (responses : list Response) (information_sum : R) : result R :=
  match responses with
  | [] => Ok information_sum
  | _ :: rest =>
      if (i <? List.length questions)%nat then
        match nth_error questions i with
        | None => information_loop theta questions (S i) rest information_sum
        | Some question =>
            information <- calculate_information theta question ;;
            information_loop theta questions (S i) rest (information_sum + information)
        end
      else information_loop theta questions (S i) rest information_sum
  end.

Definition calculate_standard_error (responses : list Response)
    (questions : list Question) : result R :=
  match responses with
  | [] => Ok 1
  | _ :: _ =>
      theta <- estimate_ability responses questions ;;
      information_sum <- information_loop theta questions 0 responses 0 ;;
      if Req_dec_T information_sum 0 then Ok 1
      else
        root <- psqrt information_sum ;;
        pdiv 1 root
  end.

(** ** [should_terminate] *)

Inductive TerminationReason : Type :=
| max_questions_reached
| sufficient_precision.

(** The dict returned by [should_terminate]. *)
Record TerminationDecision : Type := mkDecision {
  decision_should_terminate : bool;
  reasons : list TerminationReason;
  num_questions : nat;
  standard_error : R;
  ability_estimate : R
}.

(** [max_questions or self.termination_criteria['max_questions']]:
    [None] and [0] are falsy. *)
Definition or_default (max_questions_arg : option Z) (default : Z) : Z :=
  match max_questions_arg with
  | None => default
  | Some m => if (m =? 0)%Z then default else m
  end.

Definition should_terminate (self : AdaptiveAlgorithm) (responses : list Response)
    (questions : list Question) (max_questions_arg : option Z)
  : result TerminationDecision :=
  let max_q := or_default max_questions_arg (max_questions (termination_criteria self)) in
  let min_q := min_questions (termination_criteria self) in
  let se_threshold := standard_error_threshold (termination_criteria self) in
  let num_responses := List.length responses in
  se <- calculate_standard_error responses questions ;;
  let termination_reasons := [] in
  let termination_reasons :=
    if (max_q <=? Z.of_nat num_responses)%Z
    then termination_reasons ++ [max_questions_reached]
    else termination_reasons in
  let termination_reasons :=
    if (min_q <=? Z.of_nat num_responses)%Z
       && (if Rle_dec se se_threshold then true else false)
    then termination_reasons ++ [sufficient_precision]
    else termination_reasons in
  ability <- estimate_ability responses questions ;;
  Ok {| decision_should_terminate := (0 <? List.length termination_reasons)%nat;
        reasons := termination_reasons;
        num_questions := num_responses;
        standard_error := se;
        ability_estimate := ability |}.

(** ** [Question.update_psychometrics] (app/models/question.py) *)

Module QuestionModel.

(** The [Psychometrics] sub-document of a stored question. *)
Record Psychometrics : Type := mkPsychometrics {
  discrimination : R;
  difficulty : R;
  guessing : R;
  upper_asymptote : R
}.

(** [r.get('is_correct', False)] used as a condition. *)
Definition truthy_correct (r : Response) : bool :=
  get_or (is_correct r) false.

(** [sum(1 for r in rs if r.get('is_correct', False))]. *)
Definition count_correct (rs : list Response) : nat :=
  List.length (filter truthy_correct rs).

(** The sort key [x.get('user_ability', 0)]. *)
Definition ability_key (r : Response) : R :=
  get_or (user_ability r) 0.

(** Insertion of one response into a list in descending key order, in
    front of the first element whose key does not exceed its own. *)
Fixpoint insert_descending (x : Response) (l : list Response) : list Response :=
  match l with
  | [] => [x]
  | y :: l' =>
      if Rle_dec (ability_key y) (ability_key x)
      then x :: y :: l'
      else y :: insert_descending x l'
  end.

(** [sorted(responses, key=..., reverse=True)]: a stable sort into
    descending key order (responses with equal keys keep their order). *)
Fixpoint sorted_descending (responses : list Response) : list Response :=
  match responses with
  | [] => []
  | x :: rest => insert_descending x (sorted_descending rest)
  end.

(** The slice [l[-k:]] for [k >= 0]; [l[-0:]] is the whole list. *)
Definition slice_last (k : nat) (l : list Response) : list Response :=
  if (k =? 0)%nat then l else skipn (List.length l - k) l.

(** The method, with the mutated [self.psychometrics] passed in and
    returned. *)
Definition update_psychometrics (psychometrics : Psychometrics)
    (responses : list Response) : result Psychometrics :=
  match responses with
  | [] => Ok psychometrics
  | _ :: _ =>
      let correct_responses := count_correct responses in
      let total_responses := List.length responses in
      new_difficulty <- pdiv (INR correct_responses) (INR total_responses) ;;
      let psychometrics :=
        {| discrimination := discrimination psychometrics;
           difficulty := new_difficulty;
           guessing := guessing psychometrics;
           upper_asymptote := upper_asymptote psychometrics |} in
      let sorted_responses := sorted_descending responses in
      let top_third := ((List.length sorted_responses + 2) / 3)%nat in
      let bottom_third := (List.length sorted_responses / 3)%nat in
      let top_correct := count_correct (firstn top_third sorted_responses) in
      let bottom_correct := count_correct (slice_last bottom_third sorted_responses) in
      if (0 <? top_third)%nat && (0 <? bottom_third)%nat then
        top_rate <- pdiv (INR top_correct) (INR top_third) ;;
        bottom_rate <- pdiv (INR bottom_correct) (INR bottom_third) ;;
        Ok {| discrimination := top_rate - bottom_rate;
              difficulty := difficulty psychometrics;
              guessing := guessing psychometrics;
              upper_asymptote := upper_asymptote psychometrics |}
      else Ok psychometrics
  end.

End QuestionModel.

(** ** Item parameters and the response model of the specification *)

(** The parameters the code reads from a question dict, with the
    defaults it passes to [get]. *)
Definition disc (q : Question) : R := get_or (discrimination q) 0.5.
Definition diff (q : Question) : R := get_or (difficulty q) 0.5.
Definition guess (q : Question) : R := get_or (guessing q) 0.25.
Definition upper (q : Question) : R := get_or (upper_asymptote q) 1.0.

(** The four-parameter logistic curve
    [P(theta) = c + (d - c) / (1 + exp(-a (theta - b)))]. *)
Definition logistic_curve (a b c d theta : R) : R :=
  c + (d - c) / (1 + exp (- (a * (theta - b)))).

Definition response_curve (q : Question) (theta : R) : R :=
  logistic_curve (disc q) (diff q) (guess q) (upper q) theta.

(** [pq = P (1 - P)]. *)
Definition curve_pq (q : Question) (theta : R) : R :=
  response_curve q theta * (1 - response_curve q theta).

(** The invariant of the data model: [a >= 0] and [0 <= c <= d <= 1]. *)
Definition valid_item (q : Question) : Prop :=
  0 <= disc q /\ 0 <= guess q /\ guess q <= upper q /\ upper q <= 1.

(** The two corners of the invariant at which the curve is constantly
    [0] or constantly [1]. *)
Definition flat_corner (q : Question) : Prop :=
  (guess q = 0 /\ upper q = 0) \/ (guess q = 1 /\ upper q = 1).

(** The administered pairs: response [i] with question [i], for the
    indices present in both sequences. *)
Definition administered (responses : list Response) (questions : list Question)
  : list (Response * Question) :=
  combine responses questions.

(** The observed outcome [r_i] of the specification: [1] for a
    response recorded as correct, [0] for one recorded as incorrect or
    without a record. *)
Definition outcome (r : Response) : R :=
  match is_correct r with
  | Some true => 1
  | Some false => 0
  | None => 0
  end.

(** The summands of the specification:
    [first_deriv = a (r - P) (d - c) / pq] and
    [second_deriv = - a^2 (d - c)^2 / pq^2]. *)
Definition first_deriv_term (theta : R) (rq : Response * Question) : R :=
  let (r, q) := rq in
  disc q * (outcome r - response_curve q theta) * (upper q - guess q)
  / curve_pq q theta.

Definition second_deriv_term (theta : R) (rq : Response * Question) : R :=
  let (r, q) := rq in
  - ((disc q)² * (upper q - guess q)²) / (curve_pq q theta)².

(** The sum of [f] over a list. *)
Definition sum_over {A : Type} (f : A -> R) (l : list A) : R :=
  fold_right (fun x s => f x + s) 0 l.

(** [L'] and [L''] of the specification. *)
Definition L1 (pairs : list (Response * Question)) (theta : R) : R :=
  sum_over (first_deriv_term theta) pairs.

Definition L2 (pairs : list (Response * Question)) (theta : R) : R :=
  sum_over (second_deriv_term theta) pairs.

(** The Newton-Raphson update [theta - L' / L'']. *)
Definition newton_update (pairs : list (Response * Question)) (theta : R) : R :=
  theta - L1 pairs theta / L2 pairs theta.

(** The iteration as the specification words it: [newton_raphson pairs n
    theta result] holds when the iteration that is at [theta] with [n]
    iterations left returns [result]. *)
Inductive newton_raphson (pairs : list (Response * Question))
  : nat -> R -> R -> Prop :=
| nr_exhausted : forall theta,
    newton_raphson pairs 0 theta theta
| nr_flat : forall n theta,
    Rabs (L2 pairs theta) < 0.001 ->
    newton_raphson pairs (S n) theta theta
| nr_converged : forall n theta,
    ~ Rabs (L2 pairs theta) < 0.001 ->
    Rabs (newton_update pairs theta - theta) < 0.001 ->
    newton_raphson pairs (S n) theta theta
| nr_update : forall n theta result,
    ~ Rabs (L2 pairs theta) < 0.001 ->
    ~ Rabs (newton_update pairs theta - theta) < 0.001 ->
    newton_raphson pairs n (newton_update pairs theta) result ->
    newton_raphson pairs (S n) theta result.

(** Fisher information of one item,
    [I(theta) = a^2 (d - c)^2 / (P (1 - P))], and its sum. *)
Definition fisher_information (theta : R) (q : Question) : R :=
  (disc q)² * (upper q - guess q)² / curve_pq q theta.

Definition information_total (pairs : list (Response * Question)) (theta : R) : R :=
  sum_over (fun rq => fisher_information theta (snd rq)) pairs.


(** A question dict that carries an id and nothing else. *)
Definition bare_question (i : string) : Question :=
  {| id := Some i;
     discrimination := None;
     difficulty := None;
     guessing := None;
     upper_asymptote := None;
     difficulty_score := None |}.

(** A question dict with the four psychometric keys present. *)
Definition item (i : string) (a b c d : R) : Question :=
  {| id := Some i;
     discrimination := Some a;
     difficulty := Some b;
     guessing := Some c;
     upper_asymptote := Some d;
     difficulty_score := None |}.

Definition answer (correct : bool) : Response :=
  {| is_correct := Some correct; user_ability := None |}.

Definition answer_at (correct : bool) (ability : R) : Response :=
  {| is_correct := Some correct; user_ability := Some ability |}.

(** Administered pairs on which no division by [pq] can fail, whatever
    the ability. *)
Definition regular (pairs : list (Response * Question)) : Prop :=
  Forall (fun rq => forall theta, curve_pq (snd rq) theta <> 0) pairs.

(** Administered pairs whose items satisfy the invariant of the data
    model away from its two flat corners. *)
Definition well_formed (pairs : list (Response * Question)) : Prop :=
  Forall (fun rq => valid_item (snd rq) /\ ~ flat_corner (snd rq)) pairs.

(** The instance with another selection strategy configured. *)
Definition with_strategy (self : AdaptiveAlgorithm) (strategy : string)
  : AdaptiveAlgorithm :=
  {| ability_estimation_method := ability_estimation_method self;
     question_selection_strategy := strategy;
     termination_criteria := termination_criteria self |}.

(** The ability recorded with a response, [0] when none is recorded. *)
Definition recorded_ability (r : Response) : R :=
  match user_ability r with
  | Some ability => ability
  | None => 0
  end.

(** Whether a response is recorded as correct. *)
Definition recorded_correct (r : Response) : bool :=
  match is_correct r with
  | Some true => true
  | Some false => false
  | None => false
  end.

(** The number of responses of a list that are recorded as correct. *)
Fixpoint correct_among (l : list Response) : nat :=
  match l with
  | [] => O
  | r :: rest => if recorded_correct r then S (correct_among rest)
                 else correct_among rest
  end.

(** Descending order of the recorded abilities. *)
Definition descending (l : list Response) : Prop :=
  StronglySorted (fun x y => recorded_ability y <= recorded_ability x) l.

(** Two items within the invariant, with small discriminations and low
    upper asymptotes. *)
Definition low_q1 : Question := item "q1" 0.011 0 0 0.1.
Definition low_q2 : Question := item "q2" 0.014 0 0 0.05.

Definition low_ceiling_items : list Question :=
  [low_q1; low_q2].

(** ** [generate_adaptive_questions] *)

Module Generator.

(** One entry of ['options']. *)
Record OptionData : Type := mkOptionData {
  text : string;
  option_is_correct : bool
}.

(** The dict [question_data] built for each generated question. *)
Record QuestionData : Type := mkQuestionData {
  id : string;
  question_text : string;
  options : list OptionData;
  correct_answer : Z;
  difficulty : string;
  difficulty_score : Z;
  subject : string;
  topic : string;
  discrimination : R;
  guessing : R;
  upper_asymptote : R
}.

(** The [config] dict, of which only ['total_questions'] is read. *)
Record Config : Type := mkConfig {
  total_questions : option Z
}.

(** [str(n)] for a non-negative int, as interpolated by an f-string. *)
Definition decimal (n : nat) : string :=
  NilEmpty.string_of_uint (Nat.to_uint n).

(** [topics[i % len(topics)] if topics else subject]. *)
Definition topic_for (subject : string) (topics : list string) (i : nat) : string :=
  match topics with
  | [] => subject
  | _ :: _ => nth (i mod List.length topics) topics ""%string
  end.

(** The dict built in iteration [i]. *)
Definition question_data (subject : string) (topics : list string) (i : nat)
  : QuestionData :=
  let topic := topic_for subject topics i in
  {| id := "adaptive_q_" ++ decimal (i + 1);
     question_text := "Adaptive question " ++ decimal (i + 1) ++ " about " ++ topic;
     options := [ {| text := "Option A"; option_is_correct := false |};
                  {| text := "Option B"; option_is_correct := false |};
                  {| text := "Option C"; option_is_correct := true |};
                  {| text := "Option D"; option_is_correct := false |} ];
     correct_answer := 2;
     difficulty := "medium";
     difficulty_score := 50 + Z.of_nat i * 2;
     subject := subject;
     topic := topic;
     discrimination := 0.5 + INR i * 0.01;
     guessing := 0.25;
     upper_asymptote := 1.0 |}%string.

(** [for i in range(total_questions)] with [remaining] iterations left,
    at index [i], appending to [questions]. *)
Fixpoint generation_loop (subject : string) (topics : list string)
    (remaining i : nat) (questions : list QuestionData) : list QuestionData :=
  match remaining with
  | O => questions
  | S remaining' =>
      generation_loop subject topics remaining' (S i)
        (questions ++ [question_data subject topics i])
  end.

Definition generate_adaptive_questions (user_id subject : string)
    (topics : list string) (config : Config) : list QuestionData :=
  let total_questions := get_or (total_questions config) 20%Z in
  generation_loop subject topics (Z.to_nat total_questions) 0 [].

End Generator.

(** ** The other methods of [Question] (app/models/question.py) *)

Module QuestionDocument.

(** [UsageStats]; [last_used] holds a time stamp. *)
Record UsageStats : Type := mkUsageStats {
  times_used : Z;
  correct_answers : Z;
  average_time_spent : R;
  last_used : option Z
}.

(** The fields of a [Question] document read by its methods. *)
Record Question : Type := mkQuestion {
  difficulty_score : R;
  psychometrics : QuestionModel.Psychometrics;
  usage_stats : UsageStats
}.

(** [calculate_effectiveness]. *)
Definition calculate_effectiveness (self : Question) : result R :=
  if (times_used (usage_stats self) =? 0)%Z then Ok 0
  else
    accuracy <- pdiv (IZR (correct_answers (usage_stats self)))
                     (IZR (times_used (usage_stats self))) ;;
    let discrimination := QuestionModel.discrimination (psychometrics self) in
    let difficulty := QuestionModel.difficulty (psychometrics self) in
    Ok ((accuracy * 0.4 + discrimination * 0.4
         + (1 - Rabs (difficulty - 0.5)) * 0.2) * 100).

(** [update_usage_stats]; [now] is the value of [datetime.now()].  The
    updated document is returned; an exception loses it. *)
Definition update_usage_stats (self : Question) (is_correct : bool)
    (time_spent : R) (now : Z) : result Question :=
  let used := (times_used (usage_stats self) + 1)%Z in
  let correct :=
    if is_correct then (correct_answers (usage_stats self) + 1)%Z
    else correct_answers (usage_stats self) in
  let total_time :=
    average_time_spent (usage_stats self) * IZR (used - 1) + time_spent in
  average <- pdiv total_time (IZR used) ;;
  Ok {| difficulty_score := difficulty_score self;
        psychometrics := psychometrics self;
        usage_stats :=
          {| times_used := used;
             correct_answers := correct;
             average_time_spent := average;
             last_used := Some now |} |}.

(** [update_usage_stats] called once per recorded response, in order;
    a response is ([is_correct], [time_spent], [now]). *)
Fixpoint record_responses (self : Question) (events : list (bool * R * Z))
  : result Question :=
  match events with
  | [] => Ok self
  | (is_correct, time_spent, now) :: rest =>
      self' <- update_usage_stats self is_correct time_spent now ;;
      record_responses self' rest
  end.

(** [get_adaptive_difficulty]. *)
Definition get_adaptive_difficulty (self : Question) : result R :=
  let base_difficulty := difficulty_score self in
  let psychometric_difficulty :=
    QuestionModel.difficulty (psychometrics self) * 100 in
  usage_accuracy <-
    (if (0 <? times_used (usage_stats self))%Z then
       ratio <- pdiv (IZR (correct_answers (usage_stats self)))
                     (IZR (times_used (usage_stats self))) ;;
       Ok (ratio * 100)
     else Ok 50) ;;
  Ok (base_difficulty * 0.4 + psychometric_difficulty * 0.4 + usage_accuracy * 0.2).

(** The bounds declared for the fields ([difficulty_score] in
    [0, 100], psychometric difficulty and discrimination in [0, 1]),
    and usage counters with no more correct answers than uses. *)
Definition within_bounds (self : Question) : Prop :=
  0 <= difficulty_score self <= 100
  /\ 0 <= QuestionModel.discrimination (psychometrics self) <= 1
  /\ 0 <= QuestionModel.difficulty (psychometrics self) <= 1
  /\ (0 <= correct_answers (usage_stats self) <= times_used (usage_stats self))%Z.

(** A document that was never used. *)
Definition fresh (score : R) (p : QuestionModel.Psychometrics) : Question :=
  {| difficulty_score := score;
     psychometrics := p;
     usage_stats :=
       {| times_used := 0;
          correct_answers := 0;
          average_time_spent := 0;
          last_used := None |} |}.

End QuestionDocument.

(** ** Quantities used in the statements on selection and precision *)

(** The distance minimised by the [closest_difficulty] strategy. *)
Definition score_distance (theta : R) (q : Question) : R :=
  Rabs (get_or (difficulty_score q) 50 - theta).

(** [distance < min_distance], with [None] for [float('inf')]. *)
Definition below (min_distance : option R) (distance : R) : Prop :=
  match min_distance with
  | None => True
  | Some m => distance < m
  end.

(** The sum over the administered pairs of [a^2 (d - c)^2]. *)
Definition slope_total (pairs : list (Response * Question)) : R :=
  sum_over (fun rq => (disc (snd rq))² * (upper (snd rq) - guess (snd rq))²) pairs.

(** An item that carries no information: [a = 0] or [c = d]. *)
Definition uninformative (q : Question) : Prop :=
  disc q = 0 \/ guess q = upper q.

(** * Properties *)

(** ** The error monad and the partial operations *)

Lemma ok_injective {A : Type} (x y : A) : Ok x = Ok y -> x = y.
Proof. intros H. now injection H. Qed.

Lemma pdiv_ok (x y : R) : y <> 0 -> pdiv x y = Ok (x / y).
Proof.
  intros Hy. unfold pdiv.
  destruct (Req_dec_T y 0) as [E | _]; [contradiction | reflexivity].
Qed.

Lemma pdiv_zero (x y : R) : y = 0 -> pdiv x y = Raise ZeroDivisionError.
Proof.
  intros Hy. unfold pdiv.
  destruct (Req_dec_T y 0) as [_ | N]; [reflexivity | contradiction].
Qed.

Lemma psqrt_ok (x : R) : 0 <= x -> psqrt x = Ok (sqrt x).
Proof.
  intros Hx. unfold psqrt. destruct (Rlt_dec x 0) as [L | _]; [lra | reflexivity].
Qed.

(** ** The response curve *)

Lemma one_plus_exp_pos (z : R) : 0 < 1 + exp z.
Proof. pose proof (exp_pos z). lra. Qed.

(** The division inside [probability] never fails. *)
Lemma probability_total (a b c d theta : R) :
  probability a b c d theta = Ok (logistic_curve a b c d theta).
Proof.
  unfold probability, logistic_curve.
  rewrite pdiv_ok; [reflexivity |].
  pose proof (one_plus_exp_pos (- (a * (theta - b)))). lra.
Qed.

(** The logistic weight [1 / (1 + exp(-z))] lies strictly between 0 and 1. *)
Lemma logistic_weight_bounds (z : R) :
  0 < / (1 + exp z) < 1.
Proof.
  pose proof (exp_pos z) as He.
  split.
  - apply Rinv_0_lt_compat. lra.
  - rewrite <- Rinv_1 at 2. apply Rinv_lt_contravar; lra.
Qed.

Lemma response_curve_bounds (q : Question) (theta : R) :
  valid_item q -> ~ flat_corner q ->
  0 < response_curve q theta < 1.
Proof.
  intros (Ha & Hc & Hcd & Hd) Hflat.
  unfold response_curve, logistic_curve.
  set (z := - (disc q * (theta - diff q))).
  destruct (logistic_weight_bounds z) as [W0 W1].
  unfold Rdiv. set (w := / (1 + exp z)) in *.
  assert (Hcorner : 0 < upper q /\ guess q < 1).
  { unfold flat_corner in Hflat. split.
    - destruct (Req_dec_T (upper q) 0) as [E | N]; [| lra].
      exfalso. apply Hflat. left. lra.
    - destruct (Req_dec_T (guess q) 1) as [E | N]; [| lra].
      exfalso. apply Hflat. right. lra. }
  destruct Hcorner as [Hd0 Hc1].
  split.
  - assert (0 < upper q * w) by (apply Rmult_lt_0_compat; lra).
    assert (0 <= guess q * (1 - w)) by (apply Rmult_le_pos; lra).
    lra.
  - assert (0 < (1 - guess q) * (1 - w)) by (apply Rmult_lt_0_compat; lra).
    assert (0 <= (1 - upper q) * w) by (apply Rmult_le_pos; lra).
    lra.
Qed.

Lemma curve_pq_pos (q : Question) (theta : R) :
  valid_item q -> ~ flat_corner q -> 0 < curve_pq q theta.
Proof.
  intros Hv Hf. destruct (response_curve_bounds q theta Hv Hf) as [H0 H1].
  unfold curve_pq. apply Rmult_lt_0_compat; lra.
Qed.

Lemma curve_pq_flat_corner (q : Question) (theta : R) :
  flat_corner q -> curve_pq q theta = 0.
Proof.
  unfold flat_corner, curve_pq, response_curve, logistic_curve.
  intros [[Hc Hd] | [Hc Hd]]; rewrite Hc, Hd; unfold Rdiv; ring.
Qed.

(** ** The loop body against the summands of the specification *)

(** The number the code subtracts [p] from is the observed outcome. *)
Lemma correct_value_outcome (r : Response) : correct_value r = outcome r.
Proof.
  unfold correct_value, outcome, bool_to_R.
  destruct (is_correct r) as [[|] |]; reflexivity.
Qed.

Lemma item_derivatives_ok (theta : R) (r : Response) (q : Question) :
  curve_pq q theta <> 0 ->
  item_derivatives theta r q
  = Ok (first_deriv_term theta (r, q), second_deriv_term theta (r, q)).
Proof.
  intros Hpq. unfold item_derivatives.
  rewrite probability_total. cbn [bind].
  fold (disc q) (diff q) (guess q) (upper q).
  fold (response_curve q theta). fold (curve_pq q theta).
  rewrite pdiv_ok by exact Hpq. cbn [bind].
  rewrite pdiv_ok by (apply Rmult_integral_contrapositive_currified; exact Hpq).
  cbn [bind first_deriv_term second_deriv_term].
  rewrite correct_value_outcome.
  do 2 f_equal. unfold Rsqr. f_equal. ring.
Qed.

Lemma item_derivatives_raise (theta : R) (r : Response) (q : Question) :
  curve_pq q theta = 0 ->
  item_derivatives theta r q = Raise ZeroDivisionError.
Proof.
  intros Hpq. unfold item_derivatives.
  rewrite probability_total. cbn [bind].
  fold (disc q) (diff q) (guess q) (upper q).
  fold (response_curve q theta). fold (curve_pq q theta).
  rewrite pdiv_zero by exact Hpq. reflexivity.
Qed.

Lemma calculate_information_ok (theta : R) (q : Question) :
  curve_pq q theta <> 0 ->
  calculate_information theta q = Ok (fisher_information theta q).
Proof.
  intros Hpq. unfold calculate_information.
  rewrite probability_total. cbn [bind].
  fold (disc q) (diff q) (guess q) (upper q).
  fold (response_curve q theta). fold (curve_pq q theta).
  rewrite pdiv_ok by exact Hpq.
  unfold fisher_information, Rsqr. do 2 f_equal. ring.
Qed.

Lemma calculate_information_raise (theta : R) (q : Question) :
  curve_pq q theta = 0 ->
  calculate_information theta q = Raise ZeroDivisionError.
Proof.
  intros Hpq. unfold calculate_information.
  rewrite probability_total. cbn [bind].
  fold (disc q) (diff q) (guess q) (upper q).
  fold (response_curve q theta). fold (curve_pq q theta).
  now rewrite pdiv_zero.
Qed.

(** ** The inner loop computes the two sums *)

Lemma sum_over_nil {A : Type} (f : A -> R) : sum_over f [] = 0.
Proof. reflexivity. Qed.

Lemma sum_over_cons {A : Type} (f : A -> R) (x : A) (l : list A) :
  sum_over f (x :: l) = f x + sum_over f l.
Proof. reflexivity. Qed.

Lemma skipn_nth_error {A : Type} (l : list A) (i : nat) (x : A) :
  nth_error l i = Some x -> skipn i l = x :: skipn (S i) l.
Proof.
  revert i. induction l as [| y l IH]; intros [| i]; simpl; try discriminate.
  - intros [= ->]. reflexivity.
  - intros H. now apply IH.
Qed.

Lemma skipn_beyond {A : Type} (l : list A) (i : nat) :
  (List.length l <= i)%nat -> skipn i l = [].
Proof. intros H. now apply skipn_all2. Qed.

Lemma regular_tail (p : Response * Question) (pairs : list (Response * Question)) :
  regular (p :: pairs) -> regular pairs.
Proof. intros H. now inversion H. Qed.

Lemma regular_head (r : Response) (q : Question)
    (pairs : list (Response * Question)) (theta : R) :
  regular ((r, q) :: pairs) -> curve_pq q theta <> 0.
Proof. intros H. inversion H as [| ? ? Hq _]; subst. apply Hq. Qed.

Lemma accumulate_derivatives_sums (theta : R) (questions : list Question)
    (responses : list Response) :
  forall (i : nat) (acc : R * R),
    regular (combine responses (skipn i questions)) ->
    accumulate_derivatives theta questions i responses acc
    = Ok (fst acc + L1 (combine responses (skipn i questions)) theta,
          snd acc + L2 (combine responses (skipn i questions)) theta).
Proof.
  induction responses as [| r rest IH]; intros i [f s] Hreg.
  - simpl. unfold L1, L2. simpl. f_equal. f_equal; ring.
  - cbn [accumulate_derivatives].
    destruct (Nat.leb_spec (List.length questions) i) as [Hle | Hlt].
    + rewrite IH; rewrite (skipn_beyond questions (S i)) by lia.
      * rewrite (skipn_beyond questions i) by lia.
        now rewrite !combine_nil.
      * rewrite combine_nil. constructor.
    + destruct (nth_error questions i) as [q |] eqn:Hnth.
      * rewrite (skipn_nth_error _ _ _ Hnth) in Hreg |- *.
        cbn [combine] in Hreg |- *.
        rewrite (item_derivatives_ok theta r q (regular_head r q _ theta Hreg)).
        cbn [bind fst snd].
        rewrite IH by exact (regular_tail _ _ Hreg).
        unfold L1, L2. rewrite !sum_over_cons. cbn [fst snd].
        f_equal. f_equal; ring.
      * apply nth_error_None in Hnth. lia.
Qed.

Lemma derivatives_sums (theta : R) (responses : list Response)
    (questions : list Question) :
  regular (administered responses questions) ->
  derivatives theta responses questions
  = Ok (L1 (administered responses questions) theta,
        L2 (administered responses questions) theta).
Proof.
  intros Hreg. unfold derivatives.
  rewrite accumulate_derivatives_sums by exact Hreg.
  cbn [skipn fst snd]. unfold administered. f_equal. f_equal; ring.
Qed.

(** ** The outer loop is the iteration of the specification *)

Lemma tolerance_value : tolerance = 0.001.
Proof. reflexivity. Qed.

Lemma newton_loop_iterates (responses : list Response) (questions : list Question) :
  regular (administered responses questions) ->
  forall (n : nat) (theta : R),
    exists result,
      newton_loop n theta responses questions = Ok result
      /\ newton_raphson (administered responses questions) n theta result.
Proof.
  intros Hreg. induction n as [| n IH]; intros theta.
  - exists theta. split; [reflexivity | constructor].
  - cbn [newton_loop]. rewrite derivatives_sums by exact Hreg.
    cbn [bind fst snd]. rewrite tolerance_value.
    set (pairs := administered responses questions) in *.
    destruct (Rlt_dec (Rabs (L2 pairs theta)) 0.001) as [Hflat | Hsteep].
    + exists theta. split; [reflexivity | now apply nr_flat].
    + assert (Hnz : L2 pairs theta <> 0).
      { intros E. apply Hsteep. rewrite E, Rabs_R0. lra. }
      rewrite pdiv_ok by exact Hnz. cbn [bind].
      fold (newton_update pairs theta).
      destruct (Rlt_dec (Rabs (newton_update pairs theta - theta)) 0.001)
        as [Hconv | Hmove].
      * exists theta. split; [reflexivity | now apply nr_converged].
      * destruct (IH (newton_update pairs theta)) as (result & Hrun & Hspec).
        exists result. split; [exact Hrun | now apply nr_update].
Qed.

Lemma newton_raphson_functional (pairs : list (Response * Question)) :
  forall (n : nat) (theta r1 r2 : R),
    newton_raphson pairs n theta r1 ->
    newton_raphson pairs n theta r2 ->
    r1 = r2.
Proof.
  intros n theta r1 r2 H1. revert r2.
  induction H1 as [theta | n theta Hf | n theta Hs Hc | n theta r Hs Hm Hrec IH];
    intros r2 H2; inversion H2; subst; try reflexivity; try contradiction.
  now apply IH.
Qed.

Lemma well_formed_regular (pairs : list (Response * Question)) :
  well_formed pairs -> regular pairs.
Proof.
  unfold well_formed, regular. apply Forall_impl.
  intros rq [Hv Hf] theta. apply Rgt_not_eq, Rlt_gt. now apply curve_pq_pos.
Qed.

(** Over the reals, [estimate_ability] returns a value on every regular
    history. *)
Lemma estimate_ability_iterates (responses : list Response) (questions : list Question) :
  regular (administered responses questions) ->
  exists theta,
    estimate_ability responses questions = Ok theta
    /\ newton_raphson (administered responses questions) 50 0 theta.
Proof.
  intros Hreg. destruct responses as [| r rest].
  - exists 0. split; [reflexivity |].
    apply nr_flat. unfold L2. cbn. rewrite Rabs_R0. lra.
  - exact (newton_loop_iterates (r :: rest) questions Hreg 50 0).
Qed.

(** ** What the calls return when they return *)

Lemma pdiv_returns (x y v : R) : pdiv x y = Ok v -> y <> 0 /\ v = x / y.
Proof.
  unfold pdiv. destruct (Req_dec_T y 0) as [E | N]; [discriminate |].
  intros [= <-]. now split.
Qed.

Lemma item_derivatives_returns (theta : R) (r : Response) (q : Question) (t : R * R) :
  item_derivatives theta r q = Ok t ->
  curve_pq q theta <> 0
  /\ t = (first_deriv_term theta (r, q), second_deriv_term theta (r, q)).
Proof.
  intros H. destruct (Req_dec_T (curve_pq q theta) 0) as [Hz | Hnz].
  - rewrite (item_derivatives_raise theta r q Hz) in H. discriminate.
  - rewrite (item_derivatives_ok theta r q Hnz) in H.
    split; [exact Hnz | congruence].
Qed.

Lemma calculate_information_returns (theta : R) (q : Question) (v : R) :
  calculate_information theta q = Ok v ->
  curve_pq q theta <> 0 /\ v = fisher_information theta q.
Proof.
  intros H. destruct (Req_dec_T (curve_pq q theta) 0) as [Hz | Hnz].
  - rewrite (calculate_information_raise theta q Hz) in H. discriminate.
  - rewrite (calculate_information_ok theta q Hnz) in H.
    split; [exact Hnz | congruence].
Qed.

Lemma accumulate_derivatives_returns (theta : R) (questions : list Question)
    (responses : list Response) :
  forall (i : nat) (acc acc' : R * R),
    accumulate_derivatives theta questions i responses acc = Ok acc' ->
    acc' = (fst acc + L1 (combine responses (skipn i questions)) theta,
            snd acc + L2 (combine responses (skipn i questions)) theta).
Proof.
  induction responses as [| r rest IH]; intros i [f s] acc' Hrun.
  - cbn [accumulate_derivatives] in Hrun. injection Hrun as <-.
    unfold L1, L2. cbn [combine fst snd]. rewrite !sum_over_nil.
    f_equal; ring.
  - cbn [accumulate_derivatives] in Hrun.
    destruct (Nat.leb_spec (List.length questions) i) as [Hle | Hlt].
    + apply IH in Hrun. rewrite Hrun.
      rewrite (skipn_beyond questions (S i)) by lia.
      rewrite (skipn_beyond questions i) by lia.
      now rewrite !combine_nil.
    + destruct (nth_error questions i) as [q |] eqn:Hnth.
      * destruct (item_derivatives theta r q) as [t | e] eqn:Ht;
          [| discriminate].
        apply item_derivatives_returns in Ht. destruct Ht as [_ ->].
        cbn [bind fst snd] in Hrun. apply IH in Hrun. rewrite Hrun.
        rewrite (skipn_nth_error _ _ _ Hnth). cbn [combine].
        unfold L1, L2. rewrite !sum_over_cons. cbn [fst snd].
        f_equal; ring.
      * apply nth_error_None in Hnth. lia.
Qed.

Lemma derivatives_returns (theta : R) (responses : list Response)
    (questions : list Question) (ds : R * R) :
  derivatives theta responses questions = Ok ds ->
  ds = (L1 (administered responses questions) theta,
        L2 (administered responses questions) theta).
Proof.
  unfold derivatives. intros H.
  apply accumulate_derivatives_returns in H. rewrite H.
  cbn [skipn fst snd]. unfold administered. f_equal; ring.
Qed.

(** Every value [newton_loop] returns is one the iteration of the
    specification admits. *)
Lemma newton_loop_returns (responses : list Response) (questions : list Question) :
  forall (n : nat) (theta result : R),
    newton_loop n theta responses questions = Ok result ->
    newton_raphson (administered responses questions) n theta result.
Proof.
  induction n as [| n IH]; intros theta result Hrun.
  - cbn [newton_loop] in Hrun. injection Hrun as <-. constructor.
  - cbn [newton_loop] in Hrun.
    destruct (derivatives theta responses questions) as [ds | e] eqn:Hds;
      [| discriminate].
    apply derivatives_returns in Hds. subst ds.
    cbn [bind fst snd] in Hrun. rewrite tolerance_value in Hrun.
    set (pairs := administered responses questions) in *.
    destruct (Rlt_dec (Rabs (L2 pairs theta)) 0.001) as [Hflat | Hsteep].
    + injection Hrun as <-. now apply nr_flat.
    + destruct (pdiv (L1 pairs theta) (L2 pairs theta)) as [step | e] eqn:Hstep;
        [| discriminate].
      apply pdiv_returns in Hstep. destruct Hstep as [_ ->].
      cbn [bind] in Hrun. fold (newton_update pairs theta) in Hrun.
      destruct (Rlt_dec (Rabs (newton_update pairs theta - theta)) 0.001)
        as [Hconv | Hmove].
      * injection Hrun as <-. now apply nr_converged.
      * apply nr_update; [exact Hsteep | exact Hmove | now apply IH].
Qed.

Lemma estimate_ability_returns (responses : list Response)
    (questions : list Question) (theta : R) :
  estimate_ability responses questions = Ok theta ->
  newton_raphson (administered responses questions) 50 0 theta.
Proof.
  destruct responses as [| r rest]; intros Hrun.
  - cbn [estimate_ability] in Hrun. injection Hrun as <-.
    apply nr_flat. unfold L2. cbn. rewrite Rabs_R0. lra.
  - exact (newton_loop_returns (r :: rest) questions 50 0 theta Hrun).
Qed.

(** C1.  The value [estimate_ability] returns is the value of the
    Newton-Raphson iteration of the specification: started at
    [theta = 0], it moves from [theta] to [theta - L'/L''], where [L']
    sums [a (r - P) (d - c) / pq] and [L''] sums
    [- a^2 (d - c)^2 / pq^2] over the administered items, [r] being [1]
    for a correct response and [0] otherwise; it returns the current
    [theta] when [|L''| < 0.001], when the update would move by less
    than [0.001], or when 50 iterations are used up.  That value is the
    only one the iteration admits. *)
Theorem estimate_ability_newton_raphson
    (responses : list Response) (questions : list Question) (theta : R) :
  estimate_ability responses questions = Ok theta ->
  newton_raphson (administered responses questions) 50 0 theta
  /\ (forall theta',
        newton_raphson (administered responses questions) 50 0 theta' ->
        theta' = theta).
Proof.
  intros Hrun.
  pose proof (estimate_ability_returns responses questions theta Hrun) as Hnr.
  split; [exact Hnr |].
  intros theta' Hnr'.
  exact (newton_raphson_functional _ _ _ _ _ Hnr' Hnr).
Qed.

Lemma standard_item_valid (i : string) :
  valid_item (item i 1 0 0 1) /\ ~ flat_corner (item i 1 0 0 1).
Proof.
  split.
  - unfold valid_item, disc, guess, upper; cbn. lra.
  - unfold flat_corner, guess, upper; cbn. lra.
Qed.

Lemma estimate_ability_newton_raphson_witness :
  exists theta,
    estimate_ability [answer true] [item "q1" 1 0 0 1] = Ok theta
    /\ newton_raphson (administered [answer true] [item "q1" 1 0 0 1]) 50 0 theta
    /\ (forall theta',
          newton_raphson (administered [answer true] [item "q1" 1 0 0 1]) 50 0 theta' ->
          theta' = theta).
Proof.
  assert (Hreg : regular (administered [answer true] [item "q1" 1 0 0 1])).
  { apply well_formed_regular. constructor; [| constructor].
    exact (standard_item_valid "q1"). }
  destruct (estimate_ability_iterates _ _ Hreg) as (theta & Hrun & _).
  exists theta. split; [exact Hrun |].
  exact (estimate_ability_newton_raphson _ _ theta Hrun).
Defined.

(** ** Responses beyond the last question *)

Lemma accumulate_derivatives_beyond (theta : R) (questions : list Question)
    (responses : list Response) :
  forall (i : nat) (acc : R * R),
    (List.length questions <= i)%nat ->
    accumulate_derivatives theta questions i responses acc = Ok acc.
Proof.
  induction responses as [| r rest IH]; intros i acc Hle; [reflexivity |].
  cbn [accumulate_derivatives].
  destruct (Nat.leb_spec (List.length questions) i) as [_ | Hlt]; [| lia].
  apply IH. lia.
Qed.

Lemma accumulate_derivatives_firstn (theta : R) (questions : list Question)
    (responses : list Response) :
  forall (i : nat) (acc : R * R),
    accumulate_derivatives theta questions i responses acc
    = accumulate_derivatives theta questions i
        (firstn (List.length questions - i) responses) acc.
Proof.
  induction responses as [| r rest IH]; intros i acc.
  - now rewrite firstn_nil.
  - destruct (Nat.leb_spec (List.length questions) i) as [Hle | Hlt].
    + rewrite !accumulate_derivatives_beyond by exact Hle. reflexivity.
    + replace (List.length questions - i)%nat
        with (S (List.length questions - S i)) by lia.
      cbn [firstn accumulate_derivatives].
      destruct (Nat.leb_spec (List.length questions) i) as [Hle' | _]; [lia |].
      destruct (nth_error questions i) as [q |]; [| apply IH].
      destruct (item_derivatives theta r q) as [t | e]; [| reflexivity].
      cbn [bind]. apply IH.
Qed.

Lemma derivatives_firstn (theta : R) (responses : list Response)
    (questions : list Question) :
  derivatives theta responses questions
  = derivatives theta (firstn (List.length questions) responses) questions.
Proof.
  unfold derivatives. rewrite accumulate_derivatives_firstn.
  now rewrite Nat.sub_0_r.
Qed.

Lemma newton_loop_firstn (responses : list Response) (questions : list Question) :
  forall (n : nat) (theta : R),
    newton_loop n theta responses questions
    = newton_loop n theta (firstn (List.length questions) responses) questions.
Proof.
  induction n as [| n IH]; intros theta; [reflexivity |].
  cbn [newton_loop]. rewrite <- derivatives_firstn.
  destruct (derivatives theta responses questions) as [[f s] | e]; [| reflexivity].
  cbn [bind fst snd].
  destruct (Rlt_dec (Rabs s) tolerance); [reflexivity |].
  destruct (pdiv f s) as [step | e]; [| reflexivity].
  cbn [bind].
  destruct (Rlt_dec (Rabs (theta - step - theta)) tolerance); [reflexivity |].
  apply IH.
Qed.

Lemma newton_loop_no_questions (responses : list Response) (n : nat) :
  newton_loop n 0 responses [] = Ok 0.
Proof.
  destruct n as [| n]; [reflexivity |].
  cbn [newton_loop]. unfold derivatives.
  rewrite accumulate_derivatives_beyond by (cbn; lia).
  cbn [bind fst snd].
  destruct (Rlt_dec (Rabs 0) tolerance) as [_ | N]; [reflexivity |].
  exfalso. apply N. rewrite Rabs_R0. unfold tolerance. lra.
Qed.

Lemma estimate_ability_firstn (responses : list Response) (questions : list Question) :
  estimate_ability responses questions
  = estimate_ability (firstn (List.length questions) responses) questions.
Proof.
  destruct responses as [| r rest]; [now rewrite firstn_nil |].
  destruct questions as [| q qs].
  - cbn [List.length firstn estimate_ability]. apply newton_loop_no_questions.
  - cbn [List.length firstn estimate_ability].
    exact (newton_loop_firstn (r :: rest) (q :: qs) max_iterations 0).
Qed.

(** C7 (as the code behaves).  When there are more responses than
    questions, [estimate_ability] raises nothing on that account: the
    responses whose index is not below the number of questions are
    skipped, and the outcome is the outcome on the first
    [len(questions)] responses. *)
Theorem estimate_ability_skips_extra_responses
    (responses : list Response) (questions : list Question) :
  (List.length questions < List.length responses)%nat ->
  estimate_ability responses questions
  = estimate_ability (firstn (List.length questions) responses) questions.
Proof.
  intros _. apply estimate_ability_firstn.
Qed.

Lemma estimate_ability_skips_extra_responses_witness :
  (List.length [item "q1" 1 0 0 1] < List.length [answer true; answer false])%nat
  /\ estimate_ability [answer true; answer false] [item "q1" 1 0 0 1]
     = estimate_ability
         (firstn (List.length [item "q1" 1 0 0 1]) [answer true; answer false])
         [item "q1" 1 0 0 1].
Proof.
  split.
  - cbn. lia.
  - apply estimate_ability_skips_extra_responses. cbn. lia.
Defined.

(** A history with two responses and one question is accepted, and its
    estimate is the estimate of the history cut after the first
    response; with no question at all the estimate is [0]. *)
Lemma mismatched_lengths_accepted :
  (List.length [item "q1" 1 0 0 1] < List.length [answer true; answer false])%nat
  /\ (exists theta,
        estimate_ability [answer true; answer false] [item "q1" 1 0 0 1] = Ok theta
        /\ estimate_ability [answer true] [item "q1" 1 0 0 1] = Ok theta)
  /\ estimate_ability [answer true] [] = Ok 0.
Proof.
  split; [cbn; lia |]. split.
  - assert (Hreg : regular (administered [answer true] [item "q1" 1 0 0 1])).
    { apply well_formed_regular. constructor; [| constructor].
      exact (standard_item_valid "q1"). }
    destruct (estimate_ability_iterates _ _ Hreg) as (theta & Hrun & _).
    exists theta. split; [| exact Hrun].
    rewrite estimate_ability_firstn. exact Hrun.
  - apply newton_loop_no_questions.
Qed.

(** ** Division by [pq] *)

Lemma degenerate_item_valid (i : string) (a : R) :
  0 <= a -> valid_item (item i a 0 0 0) /\ flat_corner (item i a 0 0 0).
Proof.
  intros Ha. split.
  - unfold valid_item, disc, guess, upper; cbn. lra.
  - left. unfold guess, upper; cbn. split; reflexivity.
Qed.

Lemma derivatives_raise_first (theta : R) (r : Response) (rest : list Response)
    (q : Question) (qs : list Question) :
  curve_pq q theta = 0 ->
  derivatives theta (r :: rest) (q :: qs) = Raise ZeroDivisionError.
Proof.
  intros Hpq. unfold derivatives. cbn [accumulate_derivatives List.length nth_error].
  cbn [Nat.leb]. now rewrite item_derivatives_raise.
Qed.

(** C8 (as the code behaves).  No clamp is applied to [P]: the code
    divides by [pq = P (1 - P)] as computed.  For an item within the
    invariant [a >= 0], [0 <= c <= d <= 1]: when [c = d = 0] or
    [c = d = 1], [pq = 0] at every ability and both
    [calculate_information] and the loop body of [estimate_ability]
    raise [ZeroDivisionError]; and a value that either of them returns
    is the quotient by the unclamped [pq], which is then positive: the
    information [a^2 (d - c)^2 / pq], the derivative terms
    [a (r - P) (d - c) / pq] and [- a^2 (d - c)^2 / pq^2]. *)
Theorem division_by_pq (theta : R) (r : Response) (q : Question) :
  valid_item q ->
  (flat_corner q ->
     curve_pq q theta = 0
     /\ calculate_information theta q = Raise ZeroDivisionError
     /\ item_derivatives theta r q = Raise ZeroDivisionError)
  /\ (forall v,
        calculate_information theta q = Ok v ->
        ~ flat_corner q
        /\ 0 < curve_pq q theta
        /\ v = Rsqr (disc q) * Rsqr (upper q - guess q) / curve_pq q theta)
  /\ (forall t,
        item_derivatives theta r q = Ok t ->
        ~ flat_corner q
        /\ 0 < curve_pq q theta
        /\ fst t = disc q * (outcome r - response_curve q theta)
                   * (upper q - guess q) / curve_pq q theta
        /\ snd t = - (Rsqr (disc q) * Rsqr (upper q - guess q))
                   / Rsqr (curve_pq q theta)).
Proof.
  intros Hv.
  assert (Hcorner : curve_pq q theta <> 0 -> ~ flat_corner q /\ 0 < curve_pq q theta).
  { intros Hnz. assert (Hf : ~ flat_corner q).
    { intros Hf. apply Hnz. now apply curve_pq_flat_corner. }
    split; [exact Hf | now apply curve_pq_pos]. }
  split; [| split].
  - intros Hf. pose proof (curve_pq_flat_corner q theta Hf) as Hz.
    repeat split.
    + exact Hz.
    + now apply calculate_information_raise.
    + now apply item_derivatives_raise.
  - intros v Hrun. apply calculate_information_returns in Hrun.
    destruct Hrun as [Hnz ->]. destruct (Hcorner Hnz) as [Hf Hpos].
    split; [exact Hf |]. split; [exact Hpos | reflexivity].
  - intros t Hrun. apply item_derivatives_returns in Hrun.
    destruct Hrun as [Hnz ->]. destruct (Hcorner Hnz) as [Hf Hpos].
    split; [exact Hf |]. split; [exact Hpos |]. split; reflexivity.
Qed.

Lemma standard_item_information :
  calculate_information 0 (item "q1" 1 0 0 1) = Ok 4.
Proof.
  destruct (standard_item_valid "q1") as [Hv Hf].
  pose proof (curve_pq_pos (item "q1" 1 0 0 1) 0 Hv Hf) as Hpos.
  rewrite calculate_information_ok by lra. f_equal.
  unfold fisher_information, curve_pq, response_curve, logistic_curve,
    disc, diff, guess, upper, Rsqr; cbn.
  replace (- (1 * (0 - 0))) with 0 by ring. rewrite exp_0. field.
Qed.

Lemma division_by_pq_witness :
  valid_item (item "q1" 1 0 0 1)
  /\ calculate_information 0 (item "q1" 1 0 0 1) = Ok 4
  /\ ~ flat_corner (item "q1" 1 0 0 1)
  /\ 0 < curve_pq (item "q1" 1 0 0 1) 0
  /\ 4 = Rsqr (disc (item "q1" 1 0 0 1))
         * Rsqr (upper (item "q1" 1 0 0 1) - guess (item "q1" 1 0 0 1))
         / curve_pq (item "q1" 1 0 0 1) 0.
Proof.
  destruct (standard_item_valid "q1") as [Hv _].
  split; [exact Hv |]. split; [exact standard_item_information |].
  exact (proj1 (proj2 (division_by_pq 0 (answer true) (item "q1" 1 0 0 1) Hv))
           4 standard_item_information).
Defined.

(** An item with [c = d = 0] lies within the invariant, and both
    computations divide by zero on it. *)
Lemma unclamped_division_by_zero :
  valid_item (item "q1" 1 0 0 0)
  /\ calculate_information 0 (item "q1" 1 0 0 0) = Raise ZeroDivisionError
  /\ estimate_ability [answer true] [item "q1" 1 0 0 0] = Raise ZeroDivisionError.
Proof.
  destruct (degenerate_item_valid "q1" 1 ltac:(lra)) as [Hv Hf].
  split; [exact Hv | split].
  - apply calculate_information_raise. now apply curve_pq_flat_corner.
  - cbn [estimate_ability]. unfold max_iterations. cbn [newton_loop].
    rewrite derivatives_raise_first; [reflexivity |].
    now apply curve_pq_flat_corner.
Qed.

(** ** Default parameters *)







(** ** Standard error *)

Lemma information_loop_sums (theta : R) (questions : list Question)
    (responses : list Response) :
  forall (i : nat) (acc : R),
    regular (combine responses (skipn i questions)) ->
    information_loop theta questions i responses acc
    = Ok (acc + information_total (combine responses (skipn i questions)) theta).
Proof.
  induction responses as [| r rest IH]; intros i acc Hreg.
  - cbn [information_loop combine]. unfold information_total.
    rewrite sum_over_nil. f_equal. ring.
  - cbn [information_loop].
    destruct (Nat.ltb_spec i (List.length questions)) as [Hlt | Hle].
    + destruct (nth_error questions i) as [q |] eqn:Hnth.
      * rewrite (skipn_nth_error _ _ _ Hnth) in Hreg |- *.
        cbn [combine] in Hreg |- *.
        rewrite (calculate_information_ok theta q (regular_head r q _ theta Hreg)).
        cbn [bind].
        rewrite IH by exact (regular_tail _ _ Hreg).
        unfold information_total. rewrite sum_over_cons. cbn [snd].
        f_equal. ring.
      * apply nth_error_None in Hnth. lia.
    + rewrite IH; rewrite (skipn_beyond questions (S i)) by lia.
      * rewrite (skipn_beyond questions i) by lia.
        now rewrite !combine_nil.
      * rewrite combine_nil. constructor.
Qed.

Lemma fisher_information_nonneg (theta : R) (q : Question) :
  valid_item q -> ~ flat_corner q -> 0 <= fisher_information theta q.
Proof.
  intros Hv Hf. unfold fisher_information.
  pose proof (curve_pq_pos q theta Hv Hf) as Hpos.
  apply Rmult_le_pos.
  - apply Rmult_le_pos; apply Rle_0_sqr.
  - left. now apply Rinv_0_lt_compat.
Qed.

Lemma information_total_nonneg (pairs : list (Response * Question)) (theta : R) :
  well_formed pairs -> 0 <= information_total pairs theta.
Proof.
  unfold information_total.
  induction 1 as [| rq pairs [Hv Hf] _ IH].
  - rewrite sum_over_nil. lra.
  - rewrite sum_over_cons.
    pose proof (fisher_information_nonneg theta (snd rq) Hv Hf). lra.
Qed.

(** The value of [calculate_standard_error] on a non-empty history whose
    estimate is [theta]. *)
Lemma calculate_standard_error_value (r : Response) (rest : list Response)
    (questions : list Question) (theta : R) :
  well_formed (administered (r :: rest) questions) ->
  estimate_ability (r :: rest) questions = Ok theta ->
  calculate_standard_error (r :: rest) questions
  = Ok (if Req_dec_T (information_total (administered (r :: rest) questions) theta) 0
        then 1
        else 1 / sqrt (information_total (administered (r :: rest) questions) theta)).
Proof.
  intros Hwf Hest. unfold calculate_standard_error.
  rewrite Hest. cbn [bind].
  rewrite information_loop_sums by (cbn [skipn]; now apply well_formed_regular).
  cbn [bind skipn]. rewrite Rplus_0_l.
  fold (administered (r :: rest) questions).
  set (total := information_total (administered (r :: rest) questions) theta).
  pose proof (information_total_nonneg _ theta Hwf) as Hnonneg. fold total in Hnonneg.
  destruct (Req_dec_T total 0) as [Hz | Hnz]; [reflexivity |].
  rewrite psqrt_ok by exact Hnonneg. cbn [bind].
  apply pdiv_ok. apply Rgt_not_eq, Rlt_gt, sqrt_lt_R0. lra.
Qed.

Lemma information_loop_returns (theta : R) (questions : list Question)
    (responses : list Response) :
  forall (i : nat) (acc total : R),
    information_loop theta questions i responses acc = Ok total ->
    total = acc + information_total (combine responses (skipn i questions)) theta.
Proof.
  induction responses as [| r rest IH]; intros i acc total Hrun.
  - cbn [information_loop] in Hrun. injection Hrun as <-.
    cbn [combine]. unfold information_total. rewrite sum_over_nil. ring.
  - cbn [information_loop] in Hrun.
    destruct (Nat.ltb_spec i (List.length questions)) as [Hlt | Hle].
    + destruct (nth_error questions i) as [q |] eqn:Hnth.
      * destruct (calculate_information theta q) as [v | e] eqn:Hv;
          [| discriminate].
        apply calculate_information_returns in Hv. destruct Hv as [_ ->].
        cbn [bind] in Hrun. apply IH in Hrun. rewrite Hrun.
        rewrite (skipn_nth_error _ _ _ Hnth). cbn [combine].
        unfold information_total. rewrite sum_over_cons. cbn [snd]. ring.
      * apply nth_error_None in Hnth. lia.
    + apply IH in Hrun. rewrite Hrun.
      rewrite (skipn_beyond questions (S i)) by lia.
      rewrite (skipn_beyond questions i) by lia.
      now rewrite !combine_nil.
Qed.

Lemma psqrt_returns (x root : R) : psqrt x = Ok root -> 0 <= x /\ root = sqrt x.
Proof.
  unfold psqrt. destruct (Rlt_dec x 0) as [L | N]; [discriminate |].
  intros [= <-]. split; [lra | reflexivity].
Qed.

(** The last lines of [calculate_standard_error], from the estimate and
    the information sum. *)
Lemma calculate_standard_error_from (r : Response) (rest : list Response)
    (questions : list Question) (theta total : R) :
  estimate_ability (r :: rest) questions = Ok theta ->
  information_loop theta questions 0 (r :: rest) 0 = Ok total ->
  calculate_standard_error (r :: rest) questions
  = if Req_dec_T total 0 then Ok 1
    else root <- psqrt total ;; pdiv 1 root.
Proof.
  intros Hest Hinfo. unfold calculate_standard_error.
  rewrite Hest. cbn [bind]. rewrite Hinfo. reflexivity.
Qed.

(** What [calculate_standard_error] has computed when it returns on a
    non-empty history. *)
Lemma calculate_standard_error_returns (r : Response) (rest : list Response)
    (questions : list Question) (se : R) :
  calculate_standard_error (r :: rest) questions = Ok se ->
  exists theta,
    estimate_ability (r :: rest) questions = Ok theta
    /\ 0 <= information_total (administered (r :: rest) questions) theta
    /\ se = if Req_dec_T (information_total (administered (r :: rest) questions) theta) 0
            then 1
            else 1 / sqrt (information_total (administered (r :: rest) questions) theta).
Proof.
  intros Hrun. unfold calculate_standard_error in Hrun.
  destruct (estimate_ability (r :: rest) questions) as [theta | e] eqn:Hest;
    [| discriminate].
  cbn [bind] in Hrun.
  destruct (information_loop theta questions 0 (r :: rest) 0) as [total | e] eqn:Hinfo;
    [| discriminate].
  cbn [bind] in Hrun.
  apply information_loop_returns in Hinfo. cbn [skipn] in Hinfo.
  rewrite Rplus_0_l in Hinfo. fold (administered (r :: rest) questions) in Hinfo.
  subst total. exists theta. split; [reflexivity |].
  set (total := information_total (administered (r :: rest) questions) theta) in *.
  destruct (Req_dec_T total 0) as [Hz | Hnz].
  - injection Hrun as <-. split; [lra | reflexivity].
  - destruct (psqrt total) as [root | e] eqn:Hroot; [| discriminate].
    apply psqrt_returns in Hroot. destruct Hroot as [Hnonneg ->].
    cbn [bind] in Hrun. apply pdiv_returns in Hrun. destruct Hrun as [_ ->].
    split; [exact Hnonneg | reflexivity].
Qed.

(** C3 (as the code behaves).  With no response the estimate is [0] and
    the standard error is [1].  With at least one response, once the
    estimate [theta] and the information sum are computed, that sum is
    the sum [I] over the administered items of the Fisher information
    [a^2 (d - c)^2 / (P (1 - P))] at [theta], and the standard error is
    [1] when [I = 0], nothing being divided, and [1 / sqrt(I)] when
    [I > 0]; every standard error that is returned is one of these two.
    When the first administered item has [c = d = 0] or [c = d = 1]
    the call raises [ZeroDivisionError]. *)
Theorem standard_error_of_estimate
    (responses : list Response) (questions : list Question) :
  estimate_ability [] questions = Ok 0
  /\ calculate_standard_error [] questions = Ok 1
  /\ (forall theta total,
        responses <> [] ->
        estimate_ability responses questions = Ok theta ->
        information_loop theta questions 0 responses 0 = Ok total ->
        total = information_total (administered responses questions) theta
        /\ (total = 0 -> calculate_standard_error responses questions = Ok 1)
        /\ (0 < total ->
            calculate_standard_error responses questions = Ok (1 / sqrt total)))
  /\ (forall se,
        responses <> [] ->
        calculate_standard_error responses questions = Ok se ->
        exists theta,
          estimate_ability responses questions = Ok theta
          /\ 0 <= information_total (administered responses questions) theta
          /\ se = if Req_dec_T
                       (information_total (administered responses questions) theta) 0
                  then 1
                  else 1 / sqrt (information_total (administered responses questions) theta))
  /\ (forall r rest q others,
        responses = r :: rest -> questions = q :: others -> flat_corner q ->
        calculate_standard_error responses questions = Raise ZeroDivisionError).
Proof.
  split; [reflexivity |]. split; [reflexivity |]. split; [| split].
  - intros theta total Hne Hest Hinfo.
    destruct responses as [| r rest]; [contradiction |].
    rewrite (calculate_standard_error_from r rest questions theta total Hest Hinfo).
    apply information_loop_returns in Hinfo. cbn [skipn] in Hinfo.
    rewrite Rplus_0_l in Hinfo. fold (administered (r :: rest) questions) in Hinfo.
    split; [exact Hinfo |]. split.
    + intros Hz. destruct (Req_dec_T total 0) as [_ | N]; [reflexivity | contradiction].
    + intros Hpos. destruct (Req_dec_T total 0) as [E | _]; [lra |].
      rewrite psqrt_ok by lra. cbn [bind].
      apply pdiv_ok. apply Rgt_not_eq, Rlt_gt, sqrt_lt_R0. exact Hpos.
  - intros se Hne Hrun.
    destruct responses as [| r rest]; [contradiction |].
    exact (calculate_standard_error_returns r rest questions se Hrun).
  - intros r rest q others -> -> Hf.
    unfold calculate_standard_error, estimate_ability, max_iterations.
    cbn [newton_loop].
    rewrite derivatives_raise_first by (now apply curve_pq_flat_corner).
    reflexivity.
Qed.

Lemma standard_pair_well_formed (r : Response) (i : string) :
  well_formed (administered [r] [item i 1 0 0 1]).
Proof.
  constructor; [| constructor]. exact (standard_item_valid i).
Qed.

Lemma standard_item_information_pos (theta : R) :
  0 < information_total (administered [answer true] [item "q1" 1 0 0 1]) theta.
Proof.
  destruct (standard_item_valid "q1") as [Hv Hf].
  pose proof (curve_pq_pos (item "q1" 1 0 0 1) theta Hv Hf) as Hpos.
  unfold information_total, administered. cbn [combine].
  rewrite sum_over_cons, sum_over_nil. cbn [snd].
  unfold fisher_information, disc, guess, upper, Rsqr; cbn.
  apply Rinv_0_lt_compat in Hpos. lra.
Qed.

Lemma standard_error_of_estimate_witness :
  ([answer true] <> []
   /\ estimate_ability [answer true] [] = Ok 0
   /\ information_loop 0 [] 0 [answer true] 0 = Ok 0
   /\ 0 = information_total (administered [answer true] []) 0
   /\ calculate_standard_error [answer true] [] = Ok 1)
  /\ exists theta total,
       estimate_ability [answer true] [item "q1" 1 0 0 1] = Ok theta
       /\ information_loop theta [item "q1" 1 0 0 1] 0 [answer true] 0 = Ok total
       /\ 0 < total
       /\ calculate_standard_error [answer true] [item "q1" 1 0 0 1]
          = Ok (1 / sqrt total).
Proof.
  assert (Hne : [answer true] <> []) by discriminate.
  split.
  - assert (Hest : estimate_ability [answer true] [] = Ok 0).
    { unfold estimate_ability. apply newton_loop_no_questions. }
    assert (Hinfo : information_loop 0 [] 0 [answer true] 0 = Ok 0) by reflexivity.
    destruct (proj1 (proj2 (proj2 (standard_error_of_estimate [answer true] [])))
                0 0 Hne Hest Hinfo) as (Htotal & Hzero & _).
    split; [exact Hne |]. split; [exact Hest |]. split; [exact Hinfo |].
    split; [exact Htotal | exact (Hzero eq_refl)].
  - pose proof (well_formed_regular _ (standard_pair_well_formed (answer true) "q1"))
      as Hreg.
    destruct (estimate_ability_iterates _ _ Hreg) as (theta & Hest & _).
    pose proof (information_loop_sums theta [item "q1" 1 0 0 1] [answer true] 0 0 Hreg)
      as Hinfo.
    cbn [skipn] in Hinfo. rewrite Rplus_0_l in Hinfo.
    fold (administered [answer true] [item "q1" 1 0 0 1]) in Hinfo.
    pose proof (standard_item_information_pos theta) as Hpos.
    destruct (proj1 (proj2 (proj2
                (standard_error_of_estimate [answer true] [item "q1" 1 0 0 1])))
                theta _ Hne Hest Hinfo) as (_ & _ & Hse).
    eexists theta, _. split; [exact Hest |]. split; [exact Hinfo |].
    split; [exact Hpos | exact (Hse Hpos)].
Defined.

(** An item with [c = d = 0] lies within the invariant; with one
    response on it neither the estimate nor the standard error is
    returned. *)
Lemma standard_error_division_by_zero :
  valid_item (item "q1" 1 0 0 0)
  /\ [answer true] <> []
  /\ estimate_ability [answer true] [item "q1" 1 0 0 0] = Raise ZeroDivisionError
  /\ calculate_standard_error [answer true] [item "q1" 1 0 0 0]
     = Raise ZeroDivisionError.
Proof.
  destruct (degenerate_item_valid "q1" 1 ltac:(lra)) as [Hv Hf].
  assert (Hest : estimate_ability [answer true] [item "q1" 1 0 0 0]
                 = Raise ZeroDivisionError).
  { cbn [estimate_ability]. unfold max_iterations. cbn [newton_loop].
    rewrite derivatives_raise_first; [reflexivity |].
    now apply curve_pq_flat_corner. }
  split; [exact Hv |]. split; [discriminate |]. split; [exact Hest |].
  unfold calculate_standard_error. rewrite Hest. reflexivity.
Qed.

(** A non-empty history without any administered item has information
    sum [0]: its standard error is [1]. *)
Lemma standard_error_zero_information :
  calculate_standard_error [answer true] [] = Ok 1.
Proof.
  unfold calculate_standard_error, estimate_ability.
  rewrite newton_loop_no_questions.
  cbn [bind information_loop List.length Nat.ltb Nat.leb].
  destruct (Req_dec_T 0 0) as [_ | N]; [reflexivity | contradiction].
Qed.

(** ** Termination decision *)

Lemma calculate_standard_error_total (responses : list Response)
    (questions : list Question) :
  well_formed (administered responses questions) ->
  exists theta se,
    estimate_ability responses questions = Ok theta
    /\ calculate_standard_error responses questions = Ok se.
Proof.
  intros Hwf.
  destruct (estimate_ability_iterates responses questions
              (well_formed_regular _ Hwf)) as (theta & Hest & _).
  exists theta. destruct responses as [| r rest].
  - exists 1. split; [exact Hest | reflexivity].
  - eexists. split; [exact Hest |].
    apply calculate_standard_error_value; [exact Hwf | exact Hest].
Qed.

(** C2 (as the code behaves).  In every decision that
    [should_terminate] returns: [max_questions_reached] is recorded
    exactly when the number of responses is at least the ceiling, where
    the ceiling is the caller's [max_questions] when that is given and
    is not zero, and the configured [max_questions] otherwise, whatever
    the standard error; [sufficient_precision] is recorded exactly when
    the number of responses is at least [min_questions] and the
    standard error is at most [standard_error_threshold];
    [should_terminate] is true exactly when at least one of the two is
    recorded; both are recorded when both hold, in that order and
    without repetition. *)
Theorem should_terminate_decision (self : AdaptiveAlgorithm)
    (responses : list Response) (questions : list Question)
    (max_questions_arg : option Z) (decision : TerminationDecision) :
  should_terminate self responses questions max_questions_arg = Ok decision ->
  calculate_standard_error responses questions = Ok (standard_error decision)
  /\ estimate_ability responses questions = Ok (ability_estimate decision)
  /\ num_questions decision = List.length responses
  /\ (In max_questions_reached (reasons decision) <->
      (match max_questions_arg with
       | Some m =>
           if (m =? 0)%Z then max_questions (termination_criteria self) else m
       | None => max_questions (termination_criteria self)
       end <= Z.of_nat (List.length responses))%Z)
  /\ (In sufficient_precision (reasons decision) <->
      (min_questions (termination_criteria self)
       <= Z.of_nat (List.length responses))%Z
      /\ standard_error decision
         <= standard_error_threshold (termination_criteria self))
  /\ (decision_should_terminate decision = true <->
      In max_questions_reached (reasons decision)
      \/ In sufficient_precision (reasons decision))
  /\ (reasons decision = []
      \/ reasons decision = [max_questions_reached]
      \/ reasons decision = [sufficient_precision]
      \/ reasons decision = [max_questions_reached; sufficient_precision]).
Proof.
  unfold should_terminate.
  destruct (calculate_standard_error responses questions) as [se | e];
    [| discriminate].
  destruct (estimate_ability responses questions) as [theta | e];
    [| cbn [bind]; discriminate].
  cbn [bind]. intros [= <-].
  cbn [standard_error ability_estimate num_questions reasons
         decision_should_terminate].
  fold (or_default max_questions_arg (max_questions (termination_criteria self))).
  set (max_q := or_default max_questions_arg
                  (max_questions (termination_criteria self))).
  set (n := Z.of_nat (List.length responses)).
  split; [reflexivity |]. split; [reflexivity |]. split; [reflexivity |].
  destruct (Z.leb_spec max_q n) as [Hmax | Hmax];
    destruct (Z.leb_spec (min_questions (termination_criteria self)) n)
      as [Hmin | Hmin];
    destruct (Rle_dec se (standard_error_threshold (termination_criteria self)))
      as [Hprec | Hprec];
    cbn [andb app List.length Nat.ltb Nat.leb In];
    (split; [| split; [| split]]);
    try (split; intros;
         intuition (try discriminate; try congruence; try lia; try lra));
    intuition (try discriminate; try congruence; try lia; try lra).
Qed.

Lemma should_terminate_returns (self : AdaptiveAlgorithm)
    (responses : list Response) (questions : list Question)
    (max_questions_arg : option Z) (theta se : R) :
  estimate_ability responses questions = Ok theta ->
  calculate_standard_error responses questions = Ok se ->
  exists decision,
    should_terminate self responses questions max_questions_arg = Ok decision
    /\ standard_error decision = se.
Proof.
  intros Hest Hse. unfold should_terminate. rewrite Hse, Hest. cbn [bind].
  eexists. split; reflexivity.
Qed.

Lemma should_terminate_decision_witness :
  exists decision,
    should_terminate init [answer true] [item "q1" 1 0 0 1] (Some 1%Z) = Ok decision
    /\ (In max_questions_reached (reasons decision) <->
        (1 <= Z.of_nat (List.length [answer true]))%Z)
    /\ (decision_should_terminate decision = true <->
        In max_questions_reached (reasons decision)
        \/ In sufficient_precision (reasons decision)).
Proof.
  destruct (calculate_standard_error_total [answer true] [item "q1" 1 0 0 1]
              (standard_pair_well_formed (answer true) "q1"))
    as (theta & se & Hest & Hse).
  destruct (should_terminate_returns init _ _ (Some 1%Z) theta se Hest Hse)
    as (decision & Hrun & _).
  destruct (should_terminate_decision init [answer true] [item "q1" 1 0 0 1]
              (Some 1%Z) decision Hrun) as (_ & _ & _ & Hmax & _ & Hterm & _).
  exists decision. split; [exact Hrun |]. split; [exact Hmax | exact Hterm].
Defined.

(** A caller's ceiling of [0] is replaced by the configured [50]: with
    no response the count [0] reaches the ceiling [0], yet no reason is
    recorded and the decision is to continue. *)
Lemma zero_ceiling_not_enforced :
  exists decision,
    should_terminate init [] [] (Some 0%Z) = Ok decision
    /\ (0 <= Z.of_nat (List.length (@nil Response)))%Z
    /\ reasons decision = []
    /\ decision_should_terminate decision = false.
Proof.
  eexists. split; [reflexivity |].
  cbn. split; [lia |]. split; [| reflexivity].
  destruct (Rle_dec 1 0.3) as [H | _]; [lra | reflexivity].
Qed.

(** ** Selection of the next question *)

(** The [maximum_information] loop, started from the state
    ([best], [m]): either no question beats [m] and [best] is kept, or
    the result is the first question of greatest information, which
    exceeds [m]. *)
Lemma max_information_loop_first_greatest (theta : R) (unanswered : list Question) :
  Forall (fun q => curve_pq q theta <> 0) unanswered ->
  forall (best : option Question) (m : R),
  exists result,
    max_information_loop theta unanswered best m = Ok result
    /\ ((result = best
         /\ Forall (fun q => fisher_information theta q <= m) unanswered)
        \/ (exists before q after,
              unanswered = before ++ q :: after
              /\ result = Some q
              /\ m < fisher_information theta q
              /\ Forall (fun q' => fisher_information theta q'
                                   < fisher_information theta q) before
              /\ Forall (fun q' => fisher_information theta q'
                                   <= fisher_information theta q) after)).
Proof.
  induction 1 as [| x rest Hx _ IH]; intros best m.
  - exists best. split; [reflexivity |]. left. split; [reflexivity | constructor].
  - cbn [max_information_loop].
    rewrite calculate_information_ok by exact Hx. cbn [bind].
    destruct (Rgt_dec (fisher_information theta x) m) as [Hgt | Hle].
    + destruct (IH (Some x) (fisher_information theta x))
        as (result & Hrun
            & [[Hres Hall] | (before & q & after & Hl & Hres & Hq & Hb & Ha)]).
      * exists result. split; [exact Hrun |]. right.
        exists [], x, rest.
        split; [reflexivity |]. split; [exact Hres |].
        split; [exact Hgt |]. split; [constructor | exact Hall].
      * exists result. split; [exact Hrun |]. right.
        exists (x :: before), q, after.
        split; [now rewrite Hl |]. split; [exact Hres |].
        split; [unfold Rgt in Hgt; lra |].
        split; [constructor; assumption | exact Ha].
    + destruct (IH best m)
        as (result & Hrun
            & [[Hres Hall] | (before & q & after & Hl & Hres & Hq & Hb & Ha)]).
      * exists result. split; [exact Hrun |]. left.
        split; [exact Hres |]. constructor; [| exact Hall].
        unfold Rgt in Hle. lra.
      * exists result. split; [exact Hrun |]. right.
        exists (x :: before), q, after.
        split; [now rewrite Hl |]. split; [exact Hres |].
        split; [exact Hq |]. split; [| exact Ha].
        constructor; [| exact Hb]. unfold Rgt in Hle. lra.
Qed.

(** With the [maximum_information] strategy and a non-empty unanswered
    set on which no division fails, the selection returns the first
    unanswered question of greatest Fisher information when that
    information is positive, and [None] when no unanswered question has
    positive information. *)
Lemma select_maximum_information (self : AdaptiveAlgorithm) (theta : R)
    (available_questions : list Question) (answered_questions : list string) :
  question_selection_strategy self = "maximum_information"%string ->
  let unanswered := filter (not_answered answered_questions) available_questions in
  unanswered <> [] ->
  Forall (fun q => curve_pq q theta <> 0) unanswered ->
  exists result,
    select_next_question self theta available_questions answered_questions = Ok result
    /\ ((result = None
         /\ Forall (fun q => fisher_information theta q <= 0) unanswered)
        \/ (exists before q after,
              unanswered = before ++ q :: after
              /\ result = Some q
              /\ 0 < fisher_information theta q
              /\ Forall (fun q' => fisher_information theta q'
                                   < fisher_information theta q) before
              /\ Forall (fun q' => fisher_information theta q'
                                   <= fisher_information theta q) after)).
Proof.
  intros Hstrategy unanswered Hne Hreg.
  unfold select_next_question. rewrite Hstrategy.
  fold unanswered.
  destruct available_questions as [| a rest].
  - exfalso. apply Hne. reflexivity.
  - destruct unanswered as [| u us] eqn:Hu; [contradiction |].
    rewrite String.eqb_refl.
    exact (max_information_loop_first_greatest theta (u :: us) Hreg None 0).
Qed.

(** C4 (failing input).  With the [maximum_information] strategy, a
    pool holding one unanswered question of discrimination [0] (Fisher
    information [0] at every ability) yields [None]: the running
    maximum starts at [0] and only a strictly greater information
    replaces it, so the non-empty unanswered set gives no question. *)
Theorem zero_information_item_not_selected :
  filter (not_answered []) [item "q1" 0 0.5 0.25 1] = [item "q1" 0 0.5 0.25 1]
  /\ calculate_information 0 (item "q1" 0 0.5 0.25 1) = Ok 0
  /\ select_next_question init 0 [item "q1" 0 0.5 0.25 1] [] = Ok None.
Proof.
  assert (Hpq : curve_pq (item "q1" 0 0.5 0.25 1) 0 <> 0).
  { apply Rgt_not_eq, Rlt_gt, curve_pq_pos.
    - unfold valid_item, disc, guess, upper; cbn. lra.
    - unfold flat_corner, guess, upper; cbn. lra. }
  assert (Hinfo : calculate_information 0 (item "q1" 0 0.5 0.25 1) = Ok 0).
  { rewrite calculate_information_ok by exact Hpq.
    unfold fisher_information, disc, guess, upper, Rsqr; cbn.
    f_equal. unfold Rdiv. ring. }
  split; [reflexivity |]. split; [exact Hinfo |].
  unfold select_next_question. cbn [filter not_answered id item existsb negb].
  cbn [init question_selection_strategy]. rewrite String.eqb_refl.
  cbn [max_information_loop]. rewrite Hinfo. cbn [bind].
  destruct (Rgt_dec 0 0) as [H | _]; [unfold Rgt in H; lra | reflexivity].
Qed.

(** Any strategy name other than the two handled ones reaches the
    fallback branch, which reads the unbound global [random]. *)
Lemma fallback_strategy_raises (self : AdaptiveAlgorithm) (theta : R)
    (available_questions : list Question) (answered_questions : list string) :
  question_selection_strategy self <> "maximum_information"%string ->
  question_selection_strategy self <> "closest_difficulty"%string ->
  filter (not_answered answered_questions) available_questions <> [] ->
  select_next_question self theta available_questions answered_questions
  = Raise (NameError "random").
Proof.
  intros Hmax Hclosest Hne. unfold select_next_question.
  destruct available_questions as [| a rest]; [exfalso; now apply Hne |].
  destruct (filter (not_answered answered_questions) (a :: rest)) as [| u us];
    [contradiction |].
  apply String.eqb_neq in Hmax, Hclosest. rewrite Hmax, Hclosest. reflexivity.
Qed.

(** C9 (failing input).  With the strategy set to ["random"] and one
    unanswered question, the selection raises [NameError]: the module
    never imports [random], so no member of the unanswered set is
    returned. *)
Theorem random_strategy_raises_name_error :
  filter (not_answered []) [bare_question "q1"] = [bare_question "q1"]
  /\ select_next_question (with_strategy init "random") 0 [bare_question "q1"] []
     = Raise (NameError "random").
Proof.
  split; [reflexivity |].
  apply fallback_strategy_raises; cbn; discriminate.
Qed.

(** ** Psychometric update *)

Module UpdateFacts.
Import QuestionModel.

Lemma insert_descending_permutation (x : Response) (l : list Response) :
  Permutation (x :: l) (insert_descending x l).
Proof.
  induction l as [| y l IH]; cbn [insert_descending]; [reflexivity |].
  destruct (Rle_dec (ability_key y) (ability_key x)); [reflexivity |].
  rewrite perm_swap. now apply perm_skip.
Qed.

Lemma sorted_descending_permutation (l : list Response) :
  Permutation l (sorted_descending l).
Proof.
  induction l as [| x l IH]; cbn [sorted_descending]; [reflexivity |].
  rewrite <- insert_descending_permutation. now apply perm_skip.
Qed.

Lemma sorted_descending_length (l : list Response) :
  List.length (sorted_descending l) = List.length l.
Proof.
  symmetry. apply Permutation_length, sorted_descending_permutation.
Qed.

(** The sort key of the code is the recorded ability. *)
Lemma ability_key_recorded (r : Response) : ability_key r = recorded_ability r.
Proof.
  unfold ability_key, recorded_ability, get_or.
  destruct (user_ability r); reflexivity.
Qed.

(** The code counts the responses recorded as correct. *)
Lemma count_correct_among (l : list Response) : count_correct l = correct_among l.
Proof.
  unfold count_correct. induction l as [| r l IH]; [reflexivity |].
  cbn [filter correct_among]. unfold truthy_correct at 1, recorded_correct, get_or.
  destruct (is_correct r) as [[|] |]; cbn [List.length]; now rewrite IH.
Qed.

Lemma insert_descending_sorted (x : Response) (l : list Response) :
  descending l -> descending (insert_descending x l).
Proof.
  unfold descending. induction 1 as [| y l Hl IH Hy]; cbn [insert_descending].
  - repeat constructor.
  - destruct (Rle_dec (ability_key y) (ability_key x)) as [Hle | Hgt];
      rewrite (ability_key_recorded x), (ability_key_recorded y) in *.
    + constructor; [now constructor |].
      constructor; [exact Hle |].
      eapply Forall_impl; [| exact Hy]. cbv beta. intros z Hz. lra.
    + constructor; [exact IH |].
      apply (Permutation_Forall (insert_descending_permutation x l)).
      constructor; [lra | exact Hy].
Qed.

Lemma sorted_descending_sorted (l : list Response) :
  descending (sorted_descending l).
Proof.
  induction l as [| x l IH]; cbn [sorted_descending].
  - constructor.
  - now apply insert_descending_sorted.
Qed.

(** [(n + 2) // 3] is the ceiling and [n // 3] the floor of [n / 3]. *)
Lemma ceiling_third (n : nat) :
  (n <= 3 * ((n + 2) / 3) < n + 3)%nat.
Proof.
  pose proof (Nat.div_mod_eq (n + 2) 3) as E.
  pose proof (Nat.mod_upper_bound (n + 2) 3 ltac:(lia)) as B.
  lia.
Qed.

Lemma floor_third (n : nat) :
  (3 * (n / 3) <= n < 3 * (n / 3) + 3)%nat.
Proof.
  pose proof (Nat.div_mod_eq n 3) as E.
  pose proof (Nat.mod_upper_bound n 3 ltac:(lia)) as B.
  lia.
Qed.

Lemma pdiv_count (k n : nat) :
  (0 < n)%nat -> pdiv (INR k) (INR n) = Ok (INR k / INR n).
Proof.
  intros Hn. apply pdiv_ok. apply not_0_INR. lia.
Qed.

End UpdateFacts.

(** Three responses, two of them correct: difficulty becomes [2/3]; the
    most able examinee answered correctly and the least able did not,
    so discrimination becomes [1]. *)
Lemma update_psychometrics_two_of_three (psychometrics : QuestionModel.Psychometrics) :
  QuestionModel.update_psychometrics psychometrics
    [answer_at true 1; answer_at false 0; answer_at true 2]
  = Ok {| QuestionModel.discrimination := 1;
          QuestionModel.difficulty := 2 / 3;
          QuestionModel.guessing := QuestionModel.guessing psychometrics;
          QuestionModel.upper_asymptote := QuestionModel.upper_asymptote psychometrics |}.
Proof.
  assert (Hsort : QuestionModel.sorted_descending
                    [answer_at true 1; answer_at false 0; answer_at true 2]
                  = [answer_at true 2; answer_at true 1; answer_at false 0]).
  { repeat (cbn [QuestionModel.sorted_descending QuestionModel.insert_descending
                   QuestionModel.ability_key answer_at user_ability get_or];
            match goal with
            | |- context [Rle_dec ?x ?y] => destruct (Rle_dec x y); try lra
            end).
    reflexivity. }
  unfold QuestionModel.update_psychometrics. rewrite Hsort.
  cbn -[INR Rdiv Rminus pdiv].
  rewrite !pdiv_ok by (cbn; lra). cbn [bind].
  f_equal. f_equal; cbn; lra.
Qed.

(** C5.  [update_psychometrics] leaves the item unchanged on an empty
    batch.  On a batch of [n >= 1] responses it returns without
    failing, with difficulty (number of responses recorded as correct)
    / [n]; the responses are put in descending order of the ability
    recorded with them, [top] is the ceiling and [bottom] the floor of
    [n / 3], and discrimination becomes (correct among the first
    [top]) / [top] minus (correct among the last [bottom]) / [bottom]
    when both sizes are positive, and keeps its value otherwise;
    guessing and upper asymptote are kept.  With three responses, those
    of abilities 1 and 2 correct and that of ability 0 incorrect,
    difficulty becomes [2/3] and discrimination [1 - 0]. *)
Theorem update_psychometrics_batch (psychometrics : QuestionModel.Psychometrics)
    (r : Response) (rest : list Response) :
  QuestionModel.update_psychometrics psychometrics [] = Ok psychometrics
  /\ (exists (ordered : list Response) (top bottom : nat),
        Permutation (r :: rest) ordered
        /\ StronglySorted
             (fun x y =>
                match user_ability y with Some ability => ability | None => 0 end
                <= match user_ability x with Some ability => ability | None => 0 end)
             ordered
        /\ (List.length (r :: rest) <= 3 * top < List.length (r :: rest) + 3)%nat
        /\ (3 * bottom <= List.length (r :: rest) < 3 * bottom + 3)%nat
        /\ QuestionModel.update_psychometrics psychometrics (r :: rest)
           = Ok {| QuestionModel.discrimination :=
                     if (0 <? top)%nat && (0 <? bottom)%nat
                     then INR (correct_among (firstn top ordered)) / INR top
                          - INR (correct_among
                                   (skipn (List.length (r :: rest) - bottom) ordered))
                            / INR bottom
                     else QuestionModel.discrimination psychometrics;
                   QuestionModel.difficulty :=
                     INR (correct_among (r :: rest))
                     / INR (List.length (r :: rest));
                   QuestionModel.guessing := QuestionModel.guessing psychometrics;
                   QuestionModel.upper_asymptote :=
                     QuestionModel.upper_asymptote psychometrics |})
  /\ correct_among [answer_at true 1; answer_at false 0; answer_at true 2] = 2%nat
  /\ QuestionModel.update_psychometrics psychometrics
       [answer_at true 1; answer_at false 0; answer_at true 2]
     = Ok {| QuestionModel.discrimination := 1 - 0;
             QuestionModel.difficulty := 2 / 3;
             QuestionModel.guessing := QuestionModel.guessing psychometrics;
             QuestionModel.upper_asymptote :=
               QuestionModel.upper_asymptote psychometrics |}.
Proof.
  split; [reflexivity |].
  split.
  { set (responses := r :: rest).
    set (n := List.length responses).
    exists (QuestionModel.sorted_descending responses), ((n + 2) / 3)%nat, (n / 3)%nat.
    split; [apply UpdateFacts.sorted_descending_permutation |].
    split; [exact (UpdateFacts.sorted_descending_sorted responses) |].
    split; [apply UpdateFacts.ceiling_third |].
    split; [apply UpdateFacts.floor_third |].
    unfold QuestionModel.update_psychometrics. fold responses.
    change (match responses with
            | [] => Ok psychometrics
            | _ :: _ => ?body
            end) with body.
    rewrite UpdateFacts.sorted_descending_length. fold n.
    rewrite !UpdateFacts.count_correct_among.
    rewrite UpdateFacts.pdiv_count by (unfold n, responses; cbn; lia).
    cbn [bind QuestionModel.discrimination QuestionModel.difficulty
           QuestionModel.guessing QuestionModel.upper_asymptote].
    destruct (Nat.ltb_spec 0 ((n + 2) / 3)) as [Htop | Htop];
      destruct (Nat.ltb_spec 0 (n / 3)) as [Hbottom | Hbottom];
      cbn [andb]; try reflexivity.
    rewrite !UpdateFacts.pdiv_count by assumption. cbn [bind].
    unfold QuestionModel.slice_last.
    rewrite UpdateFacts.sorted_descending_length. fold n.
    destruct (Nat.eqb_spec (n / 3) 0) as [E | _]; [lia | reflexivity]. }
  split; [reflexivity |].
  rewrite update_psychometrics_two_of_three. do 2 f_equal. lra.
Qed.

(** ** Direction of the iteration on uniform histories *)

Lemma L2_nonpos (pairs : list (Response * Question)) (theta : R) :
  well_formed pairs -> L2 pairs theta <= 0.
Proof.
  unfold L2. induction 1 as [| [r q] pairs [Hv Hf] _ IH].
  - rewrite sum_over_nil. lra.
  - rewrite sum_over_cons. cbn [snd] in Hv, Hf.
    assert (second_deriv_term theta (r, q) <= 0); [| lra].
    unfold second_deriv_term.
    pose proof (curve_pq_pos q theta Hv Hf) as Hpos.
    assert (Hk : 0 <= (disc q)² * (upper q - guess q)²)
      by (apply Rmult_le_pos; apply Rle_0_sqr).
    assert (Hi : 0 < / (curve_pq q theta)²)
      by (apply Rinv_0_lt_compat, Rsqr_pos_lt; lra).
    unfold Rdiv. nra.
Qed.

Lemma first_deriv_term_sign (theta : R) (r : Response) (q : Question) :
  valid_item q -> ~ flat_corner q ->
  (outcome r = 1 -> 0 <= first_deriv_term theta (r, q))
  /\ (outcome r = 0 -> first_deriv_term theta (r, q) <= 0).
Proof.
  intros Hv Hf.
  destruct (response_curve_bounds q theta Hv Hf) as [H0 H1].
  pose proof (curve_pq_pos q theta Hv Hf) as Hpos.
  destruct Hv as (Ha & Hc & Hcd & Hd).
  assert (Hi : 0 < / curve_pq q theta) by now apply Rinv_0_lt_compat.
  assert (Hw : 0 <= disc q * (upper q - guess q)) by (apply Rmult_le_pos; lra).
  unfold first_deriv_term, Rdiv.
  split; intros ->.
  - replace (disc q * (1 - response_curve q theta) * (upper q - guess q))
      with (disc q * (upper q - guess q) * (1 - response_curve q theta)) by ring.
    apply Rmult_le_pos; [| lra]. apply Rmult_le_pos; lra.
  - replace (disc q * (0 - response_curve q theta) * (upper q - guess q))
      with (- (disc q * (upper q - guess q) * response_curve q theta)) by ring.
    assert (0 <= disc q * (upper q - guess q) * response_curve q theta)
      by (apply Rmult_le_pos; lra).
    nra.
Qed.

Lemma L1_sign (pairs : list (Response * Question)) (theta : R) :
  well_formed pairs ->
  (Forall (fun rq => outcome (fst rq) = 1) pairs -> 0 <= L1 pairs theta)
  /\ (Forall (fun rq => outcome (fst rq) = 0) pairs -> L1 pairs theta <= 0).
Proof.
  unfold L1. induction 1 as [| [r q] pairs [Hv Hf] _ [IH1 IH0]].
  - rewrite sum_over_nil. split; intros _; lra.
  - rewrite sum_over_cons. cbn [snd] in Hv, Hf.
    destruct (first_deriv_term_sign theta r q Hv Hf) as [T1 T0].
    split; intros Hall; inversion Hall as [| ? ? Hr Hrest]; subst; cbn [fst] in Hr.
    + specialize (T1 Hr). specialize (IH1 Hrest). lra.
    + specialize (T0 Hr). specialize (IH0 Hrest). lra.
Qed.

Lemma quotient_sign (f s : R) :
  s <= 0 -> s <> 0 -> (0 <= f -> f / s <= 0) /\ (f <= 0 -> 0 <= f / s).
Proof.
  intros Hs Hnz.
  assert (Hi : / s < 0) by (apply Rinv_lt_0_compat; lra).
  unfold Rdiv. split; intros Hf; nra.
Qed.

(** With every response correct the iteration never moves down, and
    with every response incorrect it never moves up. *)
Lemma newton_raphson_direction (pairs : list (Response * Question)) :
  well_formed pairs ->
  forall (n : nat) (theta result : R),
    newton_raphson pairs n theta result ->
    (Forall (fun rq => outcome (fst rq) = 1) pairs -> theta <= result)
    /\ (Forall (fun rq => outcome (fst rq) = 0) pairs -> result <= theta).
Proof.
  intros Hwf n theta result Hrun.
  induction Hrun as [theta | n theta Hf | n theta Hs Hc | n theta r Hs Hm Hrec [IH1 IH0]];
    try (split; intros _; lra).
  assert (Hnz : L2 pairs theta <> 0).
  { intros E. apply Hs. rewrite E, Rabs_R0. lra. }
  destruct (quotient_sign (L1 pairs theta) (L2 pairs theta)
              (L2_nonpos pairs theta Hwf) Hnz) as [Q1 Q0].
  destruct (L1_sign pairs theta Hwf) as [S1 S0].
  unfold newton_update in IH1, IH0.
  split; intros Hall.
  - specialize (IH1 Hall). specialize (Q1 (S1 Hall)). lra.
  - specialize (IH0 Hall). specialize (Q0 (S0 Hall)). lra.
Qed.

(** Changing one response from incorrect to correct leaves [L''] as it
    is and does not lower [L']. *)
Lemma changed_response_sums (theta : R) (incorrect correct : Response)
    (after : list Response) :
  outcome incorrect = 0 -> outcome correct = 1 ->
  forall (before : list Response) (questions : list Question),
    well_formed (combine (before ++ incorrect :: after) questions) ->
    L2 (combine (before ++ incorrect :: after) questions) theta
    = L2 (combine (before ++ correct :: after) questions) theta
    /\ L1 (combine (before ++ incorrect :: after) questions) theta
       <= L1 (combine (before ++ correct :: after) questions) theta.
Proof.
  intros H0 H1. unfold L1, L2.
  induction before as [| r before IH]; intros [| q questions] Hwf;
    cbn [app combine] in *; try (split; [reflexivity | lra]).
  - rewrite !sum_over_cons.
    inversion Hwf as [| ? ? [Hv Hf] _]; subst. cbn [snd] in Hv, Hf.
    destruct (first_deriv_term_sign theta incorrect q Hv Hf) as [_ Hlow].
    destruct (first_deriv_term_sign theta correct q Hv Hf) as [Hhigh _].
    specialize (Hlow H0). specialize (Hhigh H1).
    split; [reflexivity | lra].
  - rewrite !sum_over_cons.
    inversion Hwf as [| ? ? _ Hrest]; subst.
    destruct (IH questions Hrest) as [E2 E1].
    split; [now rewrite E2 | lra].
Qed.

Lemma quotient_monotone (f g s : R) :
  s <= 0 -> s <> 0 -> f <= g -> g / s <= f / s.
Proof.
  intros Hs Hnz Hfg.
  assert (Hi : / s < 0) by (apply Rinv_lt_0_compat; lra).
  unfold Rdiv. nra.
Qed.

(** A run on a history whose first item sits at a flat corner does not
    return. *)
Lemma estimate_ability_flat_corner (r : Response) (rest : list Response)
    (q : Question) (others : list Question) :
  flat_corner q ->
  estimate_ability (r :: rest) (q :: others) = Raise ZeroDivisionError.
Proof.
  intros Hf. cbn [estimate_ability]. unfold max_iterations. cbn [newton_loop].
  rewrite derivatives_raise_first by (now apply curve_pq_flat_corner).
  reflexivity.
Qed.

(** C6 (as the code behaves).  Changing one response of a history from
    incorrect to correct, the items and the other responses being kept:
    on well-formed administered items, at every [theta] the sum [L'']
    is unchanged, the sum [L'] does not decrease, and the update
    [theta - L'/L''] of the iteration does not decrease; and when a
    single item is administered, the estimates that are returned are at
    most [0] for the incorrect response and at least [0] for the
    correct one, so that the returned estimate does not decrease. *)
Theorem changed_response_monotone
    (before after : list Response) (incorrect correct : Response)
    (questions : list Question) (q : Question) :
  outcome incorrect = 0 -> outcome correct = 1 ->
  (well_formed (administered (before ++ incorrect :: after) questions) ->
   forall theta ds0 ds1,
     derivatives theta (before ++ incorrect :: after) questions = Ok ds0 ->
     derivatives theta (before ++ correct :: after) questions = Ok ds1 ->
     snd ds0 = snd ds1
     /\ fst ds0 <= fst ds1
     /\ (snd ds0 <> 0 ->
         theta - fst ds0 / snd ds0 <= theta - fst ds1 / snd ds1))
  /\ (valid_item q ->
      forall theta0 theta1,
        estimate_ability (incorrect :: after) [q] = Ok theta0 ->
        estimate_ability (correct :: after) [q] = Ok theta1 ->
        theta0 <= 0 /\ 0 <= theta1 /\ theta0 <= theta1).
Proof.
  intros H0 H1. split.
  - intros Hwf theta ds0 ds1 Hrun0 Hrun1.
    apply derivatives_returns in Hrun0. apply derivatives_returns in Hrun1.
    subst ds0 ds1. cbn [fst snd].
    destruct (changed_response_sums theta incorrect correct after H0 H1
                before questions Hwf) as [E2 E1].
    fold (administered (before ++ incorrect :: after) questions) in E1, E2.
    fold (administered (before ++ correct :: after) questions) in E1, E2.
    split; [exact E2 |]. split; [exact E1 |].
    intros Hnz. rewrite <- E2.
    pose proof (L2_nonpos _ theta Hwf) as Hs.
    pose proof (quotient_monotone _ _ _ Hs Hnz E1). lra.
  - intros Hv theta0 theta1 Hrun0 Hrun1.
    assert (Hf : ~ flat_corner q).
    { intros Hf.
      rewrite (estimate_ability_flat_corner incorrect after q [] Hf) in Hrun0.
      discriminate. }
    assert (Hpairs : forall r, administered (r :: after) [q] = [(r, q)]).
    { intros r. unfold administered. cbn [combine]. now rewrite combine_nil. }
    assert (Hwf : forall r, well_formed (administered (r :: after) [q])).
    { intros r. rewrite Hpairs. constructor; [split; assumption | constructor]. }
    apply estimate_ability_returns in Hrun0. apply estimate_ability_returns in Hrun1.
    assert (Hdown : theta0 <= 0).
    { apply (newton_raphson_direction _ (Hwf incorrect) _ _ _ Hrun0).
      rewrite Hpairs. constructor; [exact H0 | constructor]. }
    assert (Hup : 0 <= theta1).
    { apply (newton_raphson_direction _ (Hwf correct) _ _ _ Hrun1).
      rewrite Hpairs. constructor; [exact H1 | constructor]. }
    repeat split; lra.
Qed.

Lemma standard_item_derivatives (r : Response) :
  derivatives 0 [r; answer false] [item "q1" 1 0 0 1; item "q2" 1 0 0 1]
  = Ok (4 * outcome r - 4, - 32).
Proof.
  assert (Hreg : regular (administered [r; answer false]
                            [item "q1" 1 0 0 1; item "q2" 1 0 0 1])).
  { apply well_formed_regular.
    constructor; [exact (standard_item_valid "q1") |].
    constructor; [exact (standard_item_valid "q2") | constructor]. }
  rewrite (derivatives_sums _ _ _ Hreg). f_equal.
  unfold L1, L2, administered. cbn [combine].
  rewrite !sum_over_cons, !sum_over_nil.
  unfold first_deriv_term, second_deriv_term, curve_pq, response_curve,
    logistic_curve, disc, diff, guess, upper, Rsqr; cbn.
  replace (- (1 * (0 - 0))) with 0 by ring. rewrite exp_0.
  f_equal; field.
Qed.

Lemma changed_response_monotone_witness :
  (derivatives 0 [answer false; answer false] [item "q1" 1 0 0 1; item "q2" 1 0 0 1]
   = Ok (4 * outcome (answer false) - 4, - 32)
   /\ derivatives 0 [answer true; answer false] [item "q1" 1 0 0 1; item "q2" 1 0 0 1]
      = Ok (4 * outcome (answer true) - 4, - 32)
   /\ 0 - (4 * outcome (answer false) - 4) / - 32
      <= 0 - (4 * outcome (answer true) - 4) / - 32)
  /\ exists theta0 theta1,
       estimate_ability [answer false] [item "q1" 1 0 0 1] = Ok theta0
       /\ estimate_ability [answer true] [item "q1" 1 0 0 1] = Ok theta1
       /\ theta0 <= theta1.
Proof.
  split.
  - assert (Hwf : well_formed (administered ([] ++ answer false :: [answer false])
                                 [item "q1" 1 0 0 1; item "q2" 1 0 0 1])).
    { constructor; [exact (standard_item_valid "q1") |].
      constructor; [exact (standard_item_valid "q2") | constructor]. }
    destruct (proj1 (changed_response_monotone [] [answer false]
                       (answer false) (answer true)
                       [item "q1" 1 0 0 1; item "q2" 1 0 0 1] (item "q1" 1 0 0 1)
                       eq_refl eq_refl)
                Hwf 0 _ _
                (standard_item_derivatives (answer false))
                (standard_item_derivatives (answer true)))
      as (_ & _ & Hupdate).
    split; [exact (standard_item_derivatives (answer false)) |].
    split; [exact (standard_item_derivatives (answer true)) |].
    apply Hupdate. cbn [snd]. lra.
  - pose proof (well_formed_regular _ (standard_pair_well_formed (answer false) "q1"))
      as Hreg0.
    pose proof (well_formed_regular _ (standard_pair_well_formed (answer true) "q1"))
      as Hreg1.
    destruct (estimate_ability_iterates _ _ Hreg0) as (theta0 & Hrun0 & _).
    destruct (estimate_ability_iterates _ _ Hreg1) as (theta1 & Hrun1 & _).
    destruct (proj2 (changed_response_monotone [] [] (answer false) (answer true)
                       [] (item "q1" 1 0 0 1) eq_refl eq_refl)
                (proj1 (standard_item_valid "q1")) theta0 theta1 Hrun0 Hrun1)
      as (_ & _ & Hle).
    exists theta0, theta1. split; [exact Hrun0 |]. split; [exact Hrun1 | exact Hle].
Defined.

(** ** Bounds on the exponential *)

Lemma exp_halves (x : R) : exp x = exp (x / 2) * exp (x / 2).
Proof. rewrite <- exp_plus. f_equal. lra. Qed.

(** [(1 + x/4)^4 <= exp x]. *)
Lemma exp_lower_quartic (x : R) :
  -4 <= x -> ((1 + x / 4) * (1 + x / 4)) * ((1 + x / 4) * (1 + x / 4)) <= exp x.
Proof.
  intros Hx.
  rewrite (exp_halves x), (exp_halves (x / 2)).
  replace (x / 2 / 2) with (x / 4) by lra.
  pose proof (exp_ineq1_le (x / 4)) as Hle.
  set (y := 1 + x / 4) in *. set (e := exp (x / 4)) in *.
  assert (Hy : 0 <= y) by (unfold y; lra).
  assert (Hsq : y * y <= e * e) by nra.
  assert (Hyy : 0 <= y * y) by nra.
  nra.
Qed.

Lemma exp_neg_upper (x U : R) :
  0 <= x -> 0 <= U ->
  1 <= U * (((1 + x / 4) * (1 + x / 4)) * ((1 + x / 4) * (1 + x / 4))) ->
  exp (- x) <= U.
Proof.
  intros Hx HU Hnum.
  pose proof (exp_lower_quartic x ltac:(lra)) as Hlow.
  pose proof (exp_pos x) as Hpos. pose proof (exp_pos (- x)) as Hneg.
  assert (Hone : exp (- x) * exp x = 1).
  { rewrite <- exp_plus. replace (- x + x) with 0 by lra. apply exp_0. }
  set (l := ((1 + x / 4) * (1 + x / 4)) * ((1 + x / 4) * (1 + x / 4))) in *.
  assert (Hl : 0 < l) by (unfold l; nra).
  assert (Hel : exp (- x) * l <= 1) by nra.
  apply Rmult_le_reg_r with l; [exact Hl | lra].
Qed.

Lemma exp_neg_lower (x lo : R) :
  0 <= x <= 4 ->
  lo <= ((1 - x / 4) * (1 - x / 4)) * ((1 - x / 4) * (1 - x / 4)) ->
  lo <= exp (- x).
Proof.
  intros Hx Hnum.
  pose proof (exp_lower_quartic (- x) ltac:(lra)) as Hlow.
  replace (1 + - x / 4) with (1 - x / 4) in Hlow by lra. lra.
Qed.

Lemma exp_neg_decreasing (a theta theta' : R) :
  0 <= a -> theta <= theta' -> exp (- (a * theta')) <= exp (- (a * theta)).
Proof.
  intros Ha Hle.
  destruct (Req_dec_T (a * theta) (a * theta')) as [E | N]; [rewrite E; lra |].
  left. apply exp_increasing. nra.
Qed.

(** ** Items with [b = 0] and [c = 0]: enclosures of the curve and of the
       summands *)

Lemma response_curve_origin (i : string) (a d theta : R) :
  response_curve (item i a 0 0 d) theta = d / (1 + exp (- (a * theta))).
Proof.
  unfold response_curve, logistic_curve, disc, diff, guess, upper.
  cbn [get_or item discrimination difficulty guessing upper_asymptote].
  replace (theta - 0) with theta by ring.
  replace (d - 0) with d by ring. ring.
Qed.

Lemma response_curve_origin_lower (i : string) (a d theta T U pl : R) :
  0 <= a -> T <= theta -> 0 <= a * T -> 0 <= U ->
  1 <= U * (((1 + a * T / 4) * (1 + a * T / 4)) * ((1 + a * T / 4) * (1 + a * T / 4))) ->
  0 <= pl -> pl * (1 + U) <= d ->
  pl <= response_curve (item i a 0 0 d) theta.
Proof.
  intros Ha HT HaT HU Hnum Hpl Hd.
  rewrite response_curve_origin.
  pose proof (exp_neg_decreasing a T theta Ha HT) as Hdec.
  pose proof (exp_neg_upper (a * T) U HaT HU Hnum) as Hup.
  pose proof (exp_pos (- (a * theta))) as Hpos.
  set (E := exp (- (a * theta))) in *.
  apply Rmult_le_reg_r with (1 + E); [lra |].
  unfold Rdiv. rewrite Rmult_assoc, Rinv_l by lra. nra.
Qed.

Lemma response_curve_origin_upper (i : string) (a d theta T lo pu : R) :
  0 <= a -> theta <= T -> 0 <= a * T <= 4 ->
  lo <= ((1 - a * T / 4) * (1 - a * T / 4)) * ((1 - a * T / 4) * (1 - a * T / 4)) ->
  0 <= lo -> 0 <= pu -> d <= pu * (1 + lo) ->
  response_curve (item i a 0 0 d) theta <= pu.
Proof.
  intros Ha HT HaT Hnum Hlo Hpu Hd.
  rewrite response_curve_origin.
  pose proof (exp_neg_decreasing a theta T Ha HT) as Hdec.
  pose proof (exp_neg_lower (a * T) lo HaT Hnum) as Hlow.
  set (E := exp (- (a * theta))) in *.
  apply Rmult_le_reg_r with (1 + E); [lra |].
  unfold Rdiv. rewrite Rmult_assoc, Rinv_l by lra. nra.
Qed.

Lemma response_curve_origin_ceiling (i : string) (a d theta : R) :
  0 <= d -> response_curve (item i a 0 0 d) theta <= d.
Proof.
  intros Hd. rewrite response_curve_origin.
  pose proof (exp_pos (- (a * theta))) as Hpos.
  set (E := exp (- (a * theta))) in *.
  apply Rmult_le_reg_r with (1 + E); [lra |].
  unfold Rdiv. rewrite Rmult_assoc, Rinv_l by lra. nra.
Qed.

(** [p (1 - p)] grows with [p] up to [1/2]. *)
Lemma pq_increasing (p p' : R) :
  p <= p' -> p' <= 1 / 2 -> p * (1 - p) <= p' * (1 - p').
Proof. intros H1 H2. nra. Qed.

Lemma second_deriv_term_enclosure (theta : R) (r : Response) (q : Question) (pl pu : R) :
  0 < pl -> pl <= response_curve q theta <= pu -> pu <= 1 / 2 ->
  - ((disc q)² * (upper q - guess q)²) / (pl * (1 - pl))²
  <= second_deriv_term theta (r, q)
  <= - ((disc q)² * (upper q - guess q)²) / (pu * (1 - pu))².
Proof.
  intros Hpl [HP1 HP2] Hpu.
  unfold second_deriv_term, curve_pq.
  set (P := response_curve q theta) in *.
  set (k := (disc q)² * (upper q - guess q)²).
  assert (Hk : 0 <= k) by (apply Rmult_le_pos; apply Rle_0_sqr).
  pose proof (pq_increasing pl P HP1 ltac:(lra)) as Hlow.
  pose proof (pq_increasing P pu HP2 Hpu) as Hhigh.
  set (x := P * (1 - P)) in *. set (xl := pl * (1 - pl)) in *.
  set (xu := pu * (1 - pu)) in *.
  assert (Hxl : 0 < xl) by (unfold xl; nra).
  assert (Hsq1 : xl² <= x²) by (apply Rsqr_incr_1; lra).
  assert (Hsq2 : x² <= xu²) by (apply Rsqr_incr_1; lra).
  assert (Hpos : 0 < xl²) by (apply Rsqr_pos_lt; lra).
  assert (Hi1 : / x² <= / xl²) by (apply Rinv_le_contravar; lra).
  assert (Hi2 : / xu² <= / x²) by (apply Rinv_le_contravar; lra).
  unfold Rdiv. split; nra.
Qed.

Lemma first_deriv_term_correct_enclosure (theta : R) (r : Response) (q : Question)
    (pl pu : R) :
  outcome r = 1 -> 0 <= disc q * (upper q - guess q) ->
  0 < pl -> pl <= response_curve q theta <= pu -> pu < 1 ->
  disc q * (upper q - guess q) / pu
  <= first_deriv_term theta (r, q)
  <= disc q * (upper q - guess q) / pl.
Proof.
  intros Hr Hk Hpl [HP1 HP2] Hpu.
  unfold first_deriv_term, curve_pq. rewrite Hr.
  set (P := response_curve q theta) in *.
  set (k := disc q * (upper q - guess q)) in *.
  replace (disc q * (1 - P) * (upper q - guess q) / (P * (1 - P))) with (k / P)
    by (unfold k; field; lra).
  assert (Hi1 : / P <= / pl) by (apply Rinv_le_contravar; lra).
  assert (Hi2 : / pu <= / P) by (apply Rinv_le_contravar; lra).
  unfold Rdiv. split; nra.
Qed.

Lemma first_deriv_term_incorrect_enclosure (theta : R) (r : Response) (q : Question)
    (pl pu : R) :
  outcome r = 0 -> 0 <= disc q * (upper q - guess q) ->
  0 < pl -> pl <= response_curve q theta <= pu -> pu < 1 ->
  - (disc q * (upper q - guess q)) / (1 - pu)
  <= first_deriv_term theta (r, q)
  <= - (disc q * (upper q - guess q)) / (1 - pl).
Proof.
  intros Hr Hk Hpl [HP1 HP2] Hpu.
  unfold first_deriv_term, curve_pq. rewrite Hr.
  set (P := response_curve q theta) in *.
  set (k := disc q * (upper q - guess q)) in *.
  replace (disc q * (0 - P) * (upper q - guess q) / (P * (1 - P))) with (- k / (1 - P))
    by (unfold k; field; lra).
  assert (Hi1 : / (1 - pl) <= / (1 - P)) by (apply Rinv_le_contravar; lra).
  assert (Hi2 : / (1 - P) <= / (1 - pu)) by (apply Rinv_le_contravar; lra).
  unfold Rdiv. split; nra.
Qed.

Lemma sums_of_two (r1 r2 : Response) (q1 q2 : Question) (theta : R) :
  L1 (administered [r1; r2] [q1; q2]) theta
  = first_deriv_term theta (r1, q1) + first_deriv_term theta (r2, q2)
  /\ L2 (administered [r1; r2] [q1; q2]) theta
     = second_deriv_term theta (r1, q1) + second_deriv_term theta (r2, q2).
Proof.
  unfold L1, L2, administered. cbn [combine].
  rewrite !sum_over_cons, !sum_over_nil. split; ring.
Qed.

(** ** A two-item history on which a correct response lowers the estimate *)

Ltac item_constants :=
  unfold low_q1, low_q2, disc, guess, upper, Rsqr;
  cbn [get_or item discrimination guessing upper_asymptote].

Lemma low_ceiling_well_formed (r1 r2 : Response) :
  well_formed (administered [r1; r2] low_ceiling_items).
Proof.
  unfold low_ceiling_items, administered. cbn [combine].
  repeat constructor; cbn [snd];
    unfold valid_item, flat_corner; item_constants; lra.
Qed.

(** Enclosure of [L''] from enclosures of the two curves. *)
Lemma low_ceiling_L2_enclosure (r1 r2 : Response) (theta pl1 pu1 pl2 pu2 : R) :
  0 < pl1 -> pl1 <= response_curve low_q1 theta <= pu1 -> pu1 <= 1 / 2 ->
  0 < pl2 -> pl2 <= response_curve low_q2 theta <= pu2 -> pu2 <= 1 / 2 ->
  - (0.011 * 0.011 * (0.1 * 0.1)) / ((pl1 * (1 - pl1)) * (pl1 * (1 - pl1)))
  + - (0.014 * 0.014 * (0.05 * 0.05)) / ((pl2 * (1 - pl2)) * (pl2 * (1 - pl2)))
  <= L2 (administered [r1; r2] low_ceiling_items) theta
  <= - (0.011 * 0.011 * (0.1 * 0.1)) / ((pu1 * (1 - pu1)) * (pu1 * (1 - pu1)))
     + - (0.014 * 0.014 * (0.05 * 0.05)) / ((pu2 * (1 - pu2)) * (pu2 * (1 - pu2))).
Proof.
  intros Hl1 HP1 Hu1 Hl2 HP2 Hu2.
  unfold low_ceiling_items.
  rewrite (proj2 (sums_of_two r1 r2 low_q1 low_q2 theta)).
  pose proof (second_deriv_term_enclosure theta r1 low_q1 pl1 pu1 Hl1 HP1 Hu1)
    as [A1 B1].
  pose proof (second_deriv_term_enclosure theta r2 low_q2 pl2 pu2 Hl2 HP2 Hu2)
    as [A2 B2].
  revert A1 B1 A2 B2. item_constants.
  replace (0.1 - 0) with 0.1 by lra. replace (0.05 - 0) with 0.05 by lra.
  intros A1 B1 A2 B2. split; lra.
Qed.

(** At ability [0] both curves sit at half their ceiling. *)
Lemma low_ceiling_curves_at_origin :
  response_curve low_q1 0 = 0.05 /\ response_curve low_q2 0 = 0.025.
Proof.
  unfold low_q1, low_q2. rewrite !response_curve_origin.
  rewrite !Rmult_0_r, Ropp_0, exp_0. split; lra.
Qed.

Lemma low_ceiling_L2_at_origin (r1 r2 : Response) :
  L2 (administered [r1; r2] low_ceiling_items) 0 = - 93413 / 68635125.
Proof.
  destruct low_ceiling_curves_at_origin as [C1 C2].
  destruct (low_ceiling_L2_enclosure r1 r2 0 0.05 0.05 0.025 0.025) as [Hlow Hhigh];
    try rewrite C1; try rewrite C2; try lra.
Qed.

Lemma low_ceiling_L1_at_origin :
  L1 (administered [answer false; answer true] low_ceiling_items) 0 = 51 / 1900
  /\ L1 (administered [answer true; answer true] low_ceiling_items) 0 = 1 / 20.
Proof.
  destruct low_ceiling_curves_at_origin as [C1 C2].
  unfold low_ceiling_items.
  rewrite (proj1 (sums_of_two (answer false) (answer true) low_q1 low_q2 0)).
  rewrite (proj1 (sums_of_two (answer true) (answer true) low_q1 low_q2 0)).
  unfold first_deriv_term, curve_pq. rewrite C1, C2.
  item_constants. unfold outcome, answer. cbn [is_correct].
  split; lra.
Qed.

(** The first updates: about [19.72] when the first response is
    incorrect, about [36.74] when it is correct. *)
Lemma low_ceiling_first_updates :
  19.7 <= newton_update (administered [answer false; answer true] low_ceiling_items) 0
       <= 19.8
  /\ 36.7 <= newton_update (administered [answer true; answer true] low_ceiling_items) 0
          <= 36.8.
Proof.
  destruct low_ceiling_L1_at_origin as [LA LB].
  unfold newton_update. rewrite LA, LB, !low_ceiling_L2_at_origin. lra.
Qed.

(** From ability [36.7] on, [|L''|] is below the tolerance. *)
Lemma low_ceiling_flat_beyond (r1 r2 : Response) (theta : R) :
  36.7 <= theta ->
  Rabs (L2 (administered [r1; r2] low_ceiling_items) theta) < 0.001.
Proof.
  intros Htheta.
  assert (P1l : 0.05949 <= response_curve low_q1 theta).
  { apply response_curve_origin_lower with (T := 36.7) (U := 0.6808); lra. }
  assert (P2l : 0.03092 <= response_curve low_q2 theta).
  { apply response_curve_origin_lower with (T := 36.7) (U := 0.6167); lra. }
  assert (P1u : response_curve low_q1 theta <= 0.1)
    by (apply response_curve_origin_ceiling; lra).
  assert (P2u : response_curve low_q2 theta <= 0.05)
    by (apply response_curve_origin_ceiling; lra).
  destruct (low_ceiling_L2_enclosure r1 r2 theta 0.05949 0.1 0.03092 0.05)
    as [Hlow Hhigh]; try lra.
  apply Rabs_def1; lra.
Qed.

(** Between abilities [19.7] and [19.8], with the first response
    incorrect and the second correct: [|L''|] is not below the
    tolerance and the update lands above [41]. *)
Lemma low_ceiling_second_update (theta : R) :
  19.7 <= theta <= 19.8 ->
  ~ Rabs (L2 (administered [answer false; answer true] low_ceiling_items) theta) < 0.001
  /\ 41 <= newton_update (administered [answer false; answer true] low_ceiling_items) theta.
Proof.
  intros [Hlo Hhi].
  assert (P1l : 0.05525 <= response_curve low_q1 theta).
  { apply response_curve_origin_lower with (T := 19.7) (U := 0.8098); lra. }
  assert (P1u : response_curve low_q1 theta <= 0.05558).
  { apply response_curve_origin_upper with (T := 19.8) (lo := 0.7993); lra. }
  assert (P2l : 0.02831 <= response_curve low_q2 theta).
  { apply response_curve_origin_lower with (T := 19.7) (U := 0.7659); lra. }
  assert (P2u : response_curve low_q2 theta <= 0.02857).
  { apply response_curve_origin_upper with (T := 19.8) (lo := 0.7503); lra. }
  destruct (low_ceiling_L2_enclosure (answer false) (answer true) theta
              0.05525 0.05558 0.02831 0.02857) as [Hlow Hhigh]; try lra.
  assert (HL1 : 0.0233 <= L1 (administered [answer false; answer true] low_ceiling_items)
                            theta).
  { unfold low_ceiling_items.
    rewrite (proj1 (sums_of_two (answer false) (answer true) low_q1 low_q2 theta)).
    assert (K1 : 0 <= disc low_q1 * (upper low_q1 - guess low_q1))
      by (item_constants; lra).
    assert (K2 : 0 <= disc low_q2 * (upper low_q2 - guess low_q2))
      by (item_constants; lra).
    destruct (first_deriv_term_incorrect_enclosure theta (answer false) low_q1
                0.05525 0.05558 eq_refl K1) as [T1 _]; try lra.
    destruct (first_deriv_term_correct_enclosure theta (answer true) low_q2
                0.02831 0.02857 eq_refl K2) as [T2 _]; try lra.
    revert T1 T2. item_constants. intros T1 T2. lra. }
  set (s := L2 (administered [answer false; answer true] low_ceiling_items) theta) in *.
  set (f := L1 (administered [answer false; answer true] low_ceiling_items) theta) in *.
  assert (Hs : s <= - 0.00107 /\ - 0.0010917 <= s) by (split; lra).
  split.
  - intros Habs. apply Rabs_def2 in Habs. lra.
  - unfold newton_update. fold f s.
    assert (Hq : f / s <= - 21.3).
    { assert (Hi : / s < 0) by (apply Rinv_lt_0_compat; lra).
      assert (Hfs : f / s * s = f) by (field; lra).
      destruct (Rle_dec (f / s) (- 21.3)) as [Hle | Hgt]; [exact Hle |].
      exfalso. apply Rnot_le_lt in Hgt.
      assert (0 < (f / s + 21.3) * (- s)) by (apply Rmult_lt_0_compat; lra).
      nra. }
    lra.
Qed.

(** The two runs of the iteration. *)
Lemma low_ceiling_runs :
  exists thetaA thetaB,
    newton_raphson (administered [answer false; answer true] low_ceiling_items)
      50 0 thetaA
    /\ newton_raphson (administered [answer true; answer true] low_ceiling_items)
         50 0 thetaB
    /\ thetaB <= 36.8 /\ 41 <= thetaA.
Proof.
  destruct low_ceiling_first_updates as [[A1l A1u] [B1l B1u]].
  set (pairsA := administered [answer false; answer true] low_ceiling_items) in *.
  set (pairsB := administered [answer true; answer true] low_ceiling_items) in *.
  destruct (low_ceiling_second_update (newton_update pairsA 0) (conj A1l A1u))
    as [Hsteep A2].
  fold pairsA in Hsteep, A2.
  assert (Hsteep0 : forall r1 r2,
             ~ Rabs (L2 (administered [r1; r2] low_ceiling_items) 0) < 0.001).
  { intros r1 r2 Habs. rewrite low_ceiling_L2_at_origin in Habs.
    apply Rabs_def2 in Habs. lra. }
  assert (Hfar : forall x y : R, 1 <= y - x -> ~ Rabs (y - x) < 0.001).
  { intros x y Hxy Habs. apply Rabs_def2 in Habs. lra. }
  exists (newton_update pairsA (newton_update pairsA 0)), (newton_update pairsB 0).
  split; [| split; [| split; [exact B1u | exact A2]]].
  - apply nr_update; [apply Hsteep0 | apply Hfar; lra |].
    apply nr_update; [exact Hsteep | apply Hfar; lra |].
    apply nr_flat. apply low_ceiling_flat_beyond. lra.
  - apply nr_update; [apply Hsteep0 | apply Hfar; lra |].
    apply nr_flat. apply low_ceiling_flat_beyond. lra.
Qed.

(** Two items within the invariant, the second answered correctly:
    the estimate is above [41] when the first is answered incorrectly
    and below [36.8] when it is answered correctly.  The correct
    response moves the first update further, into the region where
    [|L''| < 0.001] stops the iteration at once. *)
Lemma correct_response_lowers_estimate :
  Forall valid_item low_ceiling_items
  /\ exists theta_incorrect theta_correct,
       estimate_ability [answer false; answer true] low_ceiling_items
       = Ok theta_incorrect
       /\ estimate_ability [answer true; answer true] low_ceiling_items
          = Ok theta_correct
       /\ theta_correct <= 36.8
       /\ 41 <= theta_incorrect
       /\ theta_correct < theta_incorrect.
Proof.
  split.
  { unfold low_ceiling_items. repeat constructor; item_constants; lra. }
  destruct low_ceiling_runs as (thetaA & thetaB & HA & HB & HBu & HAl).
  destruct (estimate_ability_iterates [answer false; answer true] low_ceiling_items
              (well_formed_regular _ (low_ceiling_well_formed _ _)))
    as (tA & HrunA & HnrA).
  destruct (estimate_ability_iterates [answer true; answer true] low_ceiling_items
              (well_formed_regular _ (low_ceiling_well_formed _ _)))
    as (tB & HrunB & HnrB).
  exists tA, tB. split; [exact HrunA |]. split; [exact HrunB |].
  rewrite (newton_raphson_functional _ _ _ _ _ HnrA HA).
  rewrite (newton_raphson_functional _ _ _ _ _ HnrB HB).
  repeat split; lra.
Qed.

(** * Further properties of the code *)

(** ** What [select_next_question] returns *)

Lemma max_information_loop_member (theta : R) (unanswered : list Question) :
  forall (best : option Question) (m : R) (q : Question),
    max_information_loop theta unanswered best m = Ok (Some q) ->
    best = Some q \/ In q unanswered.
Proof.
  induction unanswered as [| x rest IH]; intros best m q Hrun.
  - cbn in Hrun. left. congruence.
  - cbn [max_information_loop] in Hrun.
    destruct (calculate_information theta x) as [info | e]; [| discriminate].
    cbn [bind] in Hrun.
    destruct (Rgt_dec info m).
    + destruct (IH _ _ _ Hrun) as [[= ->] | Hin]; right; [now left | now right].
    + destruct (IH _ _ _ Hrun) as [Hbest | Hin]; [now left | right; now right].
Qed.

Lemma closest_difficulty_loop_member (theta : R) (unanswered : list Question) :
  forall (best : option Question) (m : option R) (q : Question),
    closest_difficulty_loop theta unanswered best m = Some q ->
    best = Some q \/ In q unanswered.
Proof.
  induction unanswered as [| x rest IH]; intros best m q Hrun.
  - cbn in Hrun. now left.
  - cbn [closest_difficulty_loop] in Hrun.
    destruct (match m with
              | Some m0 =>
                  if Rlt_dec (Rabs (get_or (difficulty_score x) 50 - theta)) m0
                  then true else false
              | None => true
              end).
    + destruct (IH _ _ _ Hrun) as [[= ->] | Hin]; right; [now left | now right].
    + destruct (IH _ _ _ Hrun) as [Hbest | Hin]; [now left | right; now right].
Qed.

(** X1.  Whatever the strategy, a question returned by
    [select_next_question] is one of the available questions and is
    not an answered one. *)
Theorem selected_question_is_unanswered (self : AdaptiveAlgorithm) (theta : R)
    (available_questions : list Question) (answered_questions : list string)
    (q : Question) :
  select_next_question self theta available_questions answered_questions
  = Ok (Some q) ->
  In q available_questions
  /\ (forall i, id q = Some i -> ~ In i answered_questions).
Proof.
  intros Hrun.
  assert (Hin : In q (filter (not_answered answered_questions) available_questions)).
  { unfold select_next_question in Hrun.
    destruct available_questions as [| a rest]; [discriminate |].
    destruct (filter (not_answered answered_questions) (a :: rest)) as [| u us];
      [discriminate |].
    destruct (question_selection_strategy self =? "maximum_information")%string.
    - destruct (max_information_loop_member _ _ _ _ _ Hrun) as [Hnone | Hin];
        [discriminate | exact Hin].
    - destruct (question_selection_strategy self =? "closest_difficulty")%string;
        [| unfold random_choice in Hrun; discriminate].
      assert (Hloop : closest_difficulty_loop theta (u :: us) None None = Some q)
        by (injection Hrun as Hrun; exact Hrun).
      destruct (closest_difficulty_loop_member _ _ _ _ _ Hloop) as [Hnone | Hin];
        [discriminate | exact Hin]. }
  apply filter_In in Hin. destruct Hin as [Hin Hkeep].
  split; [exact Hin |].
  intros i Hid Hanswered. unfold not_answered in Hkeep. rewrite Hid in Hkeep.
  apply negb_true_iff in Hkeep.
  assert (Hex : existsb (String.eqb i) answered_questions = true).
  { apply existsb_exists. exists i. split; [exact Hanswered | apply String.eqb_refl]. }
  congruence.
Qed.

Lemma selected_question_is_unanswered_witness :
  select_next_question (with_strategy init "closest_difficulty") 0
    [bare_question "q1"; bare_question "q2"] ["q1"%string]
  = Ok (Some (bare_question "q2"))
  /\ In (bare_question "q2") [bare_question "q1"; bare_question "q2"]
  /\ (forall i, id (bare_question "q2") = Some i -> ~ In i ["q1"%string]).
Proof.
  assert (Hrun : select_next_question (with_strategy init "closest_difficulty") 0
                   [bare_question "q1"; bare_question "q2"] ["q1"%string]
                 = Ok (Some (bare_question "q2"))) by reflexivity.
  split; [exact Hrun |].
  exact (selected_question_is_unanswered _ _ _ _ _ Hrun).
Defined.

(** X2.  When every available question carries an id that is among the
    answered ones, [select_next_question] returns [None] without
    raising, whatever the strategy: the fallback branch and the
    information of the questions are never reached. *)
Theorem exhausted_pool_selects_nothing (self : AdaptiveAlgorithm) (theta : R)
    (available_questions : list Question) (answered_questions : list string) :
  (forall q, In q available_questions ->
             exists i, id q = Some i /\ In i answered_questions) ->
  select_next_question self theta available_questions answered_questions = Ok None.
Proof.
  intros Hall. unfold select_next_question.
  destruct available_questions as [| a rest]; [reflexivity |].
  assert (Hnone : filter (not_answered answered_questions) (a :: rest) = []).
  { assert (Hf : forall l, (forall q, In q l ->
                   exists i, id q = Some i /\ In i answered_questions) ->
                 filter (not_answered answered_questions) l = []).
    { induction l as [| x l IH]; intros H; [reflexivity |].
      cbn [filter]. destruct (H x (or_introl eq_refl)) as (i & Hid & Hi).
      unfold not_answered at 1. rewrite Hid.
      assert (Hex : existsb (String.eqb i) answered_questions = true).
      { apply existsb_exists. exists i. split; [exact Hi | apply String.eqb_refl]. }
      rewrite Hex. cbn [negb]. apply IH. intros q Hq. apply H. now right. }
    now apply Hf. }
  rewrite Hnone. reflexivity.
Qed.

Lemma exhausted_pool_selects_nothing_witness :
  (forall q, In q [item "q1" 1 0 0 0] ->
             exists i, id q = Some i /\ In i ["q1"%string])
  /\ select_next_question (with_strategy init "random") 0
       [item "q1" 1 0 0 0] ["q1"%string] = Ok None.
Proof.
  assert (H : forall q, In q [item "q1" 1 0 0 0] ->
                        exists i, id q = Some i /\ In i ["q1"%string]).
  { intros q [<- | []]. exists "q1"%string. split; [reflexivity | now left]. }
  split; [exact H |].
  exact (exhausted_pool_selects_nothing (with_strategy init "random") 0 _ _ H).
Defined.

(** ** The [closest_difficulty] strategy *)

(** The loop started from the state ([best], [m]): either no question
    is below [m] and [best] is kept, or the result is the first
    question of least distance, which is below [m]. *)
Lemma closest_difficulty_loop_first_least (theta : R) (unanswered : list Question) :
  forall (best : option Question) (m : option R),
    (closest_difficulty_loop theta unanswered best m = best
     /\ Forall (fun q => ~ below m (score_distance theta q)) unanswered)
    \/ (exists before q after,
          unanswered = before ++ q :: after
          /\ closest_difficulty_loop theta unanswered best m = Some q
          /\ below m (score_distance theta q)
          /\ Forall (fun q' => score_distance theta q < score_distance theta q') before
          /\ Forall (fun q' => score_distance theta q <= score_distance theta q') after).
Proof.
  induction unanswered as [| x rest IH]; intros best m.
  - left. split; [reflexivity | constructor].
  - cbn [closest_difficulty_loop]. fold (score_distance theta x).
    assert (Hdec : {below m (score_distance theta x)}
                   + {~ below m (score_distance theta x)}).
    { destruct m as [d |]; cbn [below]; [apply Rlt_dec | now left]. }
    destruct Hdec as [Hlt | Hge].
    + replace (match m with
               | Some m0 => if Rlt_dec (score_distance theta x) m0 then true else false
               | None => true
               end) with true.
      2:{ destruct m as [d |]; [| reflexivity]. cbn [below] in Hlt.
          destruct (Rlt_dec (score_distance theta x) d); [reflexivity | contradiction]. }
      right.
      destruct (IH (Some x) (Some (score_distance theta x)))
        as [[Hres Hall] | (before & q & after & Hl & Hres & Hq & Hb & Ha)].
      * exists [], x, rest.
        split; [reflexivity |]. split; [exact Hres |]. split; [exact Hlt |].
        split; [constructor |].
        eapply Forall_impl; [| exact Hall]. cbn [below]. intros q Hq. lra.
      * exists (x :: before), q, after.
        split; [now rewrite Hl |]. split; [exact Hres |].
        cbn [below] in Hq.
        split; [destruct m as [d |]; cbn [below] in *; [lra | exact I] |].
        split; [constructor; assumption | exact Ha].
    + replace (match m with
               | Some m0 => if Rlt_dec (score_distance theta x) m0 then true else false
               | None => true
               end) with false.
      2:{ destruct m as [d |]; [| exfalso; apply Hge; exact I]. cbn [below] in Hge.
          destruct (Rlt_dec (score_distance theta x) d); [contradiction | reflexivity]. }
      destruct (IH best m)
        as [[Hres Hall] | (before & q & after & Hl & Hres & Hq & Hb & Ha)].
      * left. split; [exact Hres |]. constructor; assumption.
      * right. exists (x :: before), q, after.
        split; [now rewrite Hl |]. split; [exact Hres |]. split; [exact Hq |].
        split; [| exact Ha].
        constructor; [| exact Hb].
        destruct m as [d |]; cbn [below] in *; [lra | exfalso; apply Hge; exact I].
Qed.

(** X3.  With the [closest_difficulty] strategy and at least one
    unanswered question, the selection never raises and returns the
    first unanswered question, in pool order, whose [difficulty_score]
    (50 when absent) is nearest to the current ability: strictly nearer
    than every unanswered question before it and at least as near as
    every one after it. *)
Theorem closest_difficulty_selects_first_nearest (self : AdaptiveAlgorithm) (theta : R)
    (available_questions : list Question) (answered_questions : list string) :
  question_selection_strategy self = "closest_difficulty"%string ->
  filter (not_answered answered_questions) available_questions <> [] ->
  exists before q after,
    filter (not_answered answered_questions) available_questions
    = before ++ q :: after
    /\ select_next_question self theta available_questions answered_questions
       = Ok (Some q)
    /\ Forall (fun q' => score_distance theta q < score_distance theta q') before
    /\ Forall (fun q' => score_distance theta q <= score_distance theta q') after.
Proof.
  intros Hstrategy Hne. unfold select_next_question. rewrite Hstrategy.
  destruct available_questions as [| a rest]; [exfalso; now apply Hne |].
  destruct (filter (not_answered answered_questions) (a :: rest)) as [| u us] eqn:Hu;
    [contradiction |].
  change (("closest_difficulty" =? "maximum_information")%string) with false.
  rewrite String.eqb_refl. cbv iota.
  destruct (closest_difficulty_loop_first_least theta (u :: us) None None)
    as [[_ Hall] | (before & q & after & Hl & Hres & _ & Hb & Ha)].
  - exfalso. inversion Hall as [| ? ? Hhead _]; subst. apply Hhead. exact I.
  - exists before, q, after.
    split; [exact Hl |]. split; [now rewrite Hres |]. split; assumption.
Qed.

Lemma closest_difficulty_selects_first_nearest_witness :
  question_selection_strategy (with_strategy init "closest_difficulty")
  = "closest_difficulty"%string
  /\ filter (not_answered []) [item "q1" 1 0 0 0] <> []
  /\ exists before q after,
       filter (not_answered []) [item "q1" 1 0 0 0] = before ++ q :: after
       /\ select_next_question (with_strategy init "closest_difficulty") 0
            [item "q1" 1 0 0 0] [] = Ok (Some q)
       /\ Forall (fun q' => score_distance 0 q < score_distance 0 q') before
       /\ Forall (fun q' => score_distance 0 q <= score_distance 0 q') after.
Proof.
  split; [reflexivity |]. split; [discriminate |].
  apply closest_difficulty_selects_first_nearest; [reflexivity | discriminate].
Defined.

(** ** Failure of the [maximum_information] strategy *)

Lemma max_information_loop_raises (theta : R) (unanswered : list Question) :
  Exists (fun q => curve_pq q theta = 0) unanswered ->
  forall (best : option Question) (m : R),
    max_information_loop theta unanswered best m = Raise ZeroDivisionError.
Proof.
  induction unanswered as [| x rest IH]; intros Hex best m.
  - inversion Hex.
  - cbn [max_information_loop].
    destruct (Req_dec_T (curve_pq x theta) 0) as [Hz | Hnz].
    + now rewrite calculate_information_raise.
    + rewrite calculate_information_ok by exact Hnz. cbn [bind].
      assert (Hrest : Exists (fun q => curve_pq q theta = 0) rest).
      { inversion Hex as [? ? Hx | ? ? Hr]; subst; [contradiction | exact Hr]. }
      destruct (Rgt_dec (fisher_information theta x) m); now apply IH.
Qed.

(** X4.  With the [maximum_information] strategy, one unanswered
    question whose [P (1 - P)] is zero at the current ability (an item
    with [c = d = 0] or [c = d = 1]) makes the whole selection raise
    [ZeroDivisionError], wherever it stands in the pool and whatever
    the other questions are. *)
Theorem degenerate_item_breaks_selection (self : AdaptiveAlgorithm) (theta : R)
    (available_questions : list Question) (answered_questions : list string)
    (q : Question) :
  question_selection_strategy self = "maximum_information"%string ->
  In q available_questions ->
  not_answered answered_questions q = true ->
  flat_corner q ->
  select_next_question self theta available_questions answered_questions
  = Raise ZeroDivisionError.
Proof.
  intros Hstrategy Hin Hkeep Hflat.
  assert (Hmem : In q (filter (not_answered answered_questions) available_questions))
    by (apply filter_In; now split).
  unfold select_next_question. rewrite Hstrategy.
  destruct available_questions as [| a rest]; [contradiction |].
  destruct (filter (not_answered answered_questions) (a :: rest)) as [| u us];
    [contradiction |].
  rewrite String.eqb_refl.
  apply max_information_loop_raises.
  apply Exists_exists. exists q. split; [exact Hmem |].
  now apply curve_pq_flat_corner.
Qed.

Lemma degenerate_item_breaks_selection_witness :
  question_selection_strategy init = "maximum_information"%string
  /\ In (item "q2" 1 0 0 0) [item "q1" 1 0 0 1; item "q2" 1 0 0 0]
  /\ not_answered [] (item "q2" 1 0 0 0) = true
  /\ flat_corner (item "q2" 1 0 0 0)
  /\ select_next_question init 0 [item "q1" 1 0 0 1; item "q2" 1 0 0 0] []
     = Raise ZeroDivisionError.
Proof.
  assert (Hin : In (item "q2" 1 0 0 0) [item "q1" 1 0 0 1; item "q2" 1 0 0 0])
    by (right; now left).
  split; [reflexivity |]. split; [exact Hin |]. split; [reflexivity |].
  split; [exact (proj2 (degenerate_item_valid "q2" 1 Rle_0_1)) |].
  exact (degenerate_item_breaks_selection init 0 _ [] _ eq_refl Hin eq_refl
           (proj2 (degenerate_item_valid "q2" 1 Rle_0_1))).
Defined.

(** ** Information of items with [c = 0] and [d = 1] *)












(** ** Questions beyond the last response *)

Lemma firstn_guard (questions : list Question) (n i : nat) :
  (i < n)%nat ->
  (List.length (firstn n questions) <=? i)%nat = (List.length questions <=? i)%nat
  /\ (i <? List.length (firstn n questions))%nat = (i <? List.length questions)%nat
  /\ nth_error (firstn n questions) i = nth_error questions i.
Proof.
  intros Hi. rewrite length_firstn, nth_error_firstn.
  destruct (Nat.ltb_spec i n) as [_ | H]; [| lia].
  repeat split.
  - destruct (Nat.leb_spec (Nat.min n (List.length questions)) i);
      destruct (Nat.leb_spec (List.length questions) i); try reflexivity; lia.
  - destruct (Nat.ltb_spec i (Nat.min n (List.length questions)));
      destruct (Nat.ltb_spec i (List.length questions)); try reflexivity; lia.
Qed.

Lemma accumulate_derivatives_questions_firstn (theta : R) (questions : list Question)
    (n : nat) (responses : list Response) :
  forall (i : nat) (acc : R * R),
    (i + List.length responses <= n)%nat ->
    accumulate_derivatives theta (firstn n questions) i responses acc
    = accumulate_derivatives theta questions i responses acc.
Proof.
  induction responses as [| r rest IH]; intros i acc Hn; [reflexivity |].
  cbn [List.length] in Hn. cbn [accumulate_derivatives].
  destruct (firstn_guard questions n i ltac:(lia)) as (-> & _ & ->).
  destruct (List.length questions <=? i)%nat; [apply IH; lia |].
  destruct (nth_error questions i) as [q |]; [| apply IH; lia].
  destruct (item_derivatives theta r q) as [t | e]; [| reflexivity].
  cbn [bind]. apply IH. lia.
Qed.

Lemma information_loop_questions_firstn (theta : R) (questions : list Question)
    (n : nat) (responses : list Response) :
  forall (i : nat) (acc : R),
    (i + List.length responses <= n)%nat ->
    information_loop theta (firstn n questions) i responses acc
    = information_loop theta questions i responses acc.
Proof.
  induction responses as [| r rest IH]; intros i acc Hn; [reflexivity |].
  cbn [List.length] in Hn. cbn [information_loop].
  destruct (firstn_guard questions n i ltac:(lia)) as (_ & -> & ->).
  destruct (i <? List.length questions)%nat; [| apply IH; lia].
  destruct (nth_error questions i) as [q |]; [| apply IH; lia].
  destruct (calculate_information theta q) as [t | e]; [| reflexivity].
  cbn [bind]. apply IH. lia.
Qed.

Lemma newton_loop_questions_firstn (responses : list Response)
    (questions : list Question) :
  forall (n : nat) (theta : R),
    newton_loop n theta responses (firstn (List.length responses) questions)
    = newton_loop n theta responses questions.
Proof.
  induction n as [| n IH]; intros theta; [reflexivity |].
  cbn [newton_loop]. unfold derivatives.
  rewrite accumulate_derivatives_questions_firstn by lia.
  destruct (accumulate_derivatives theta questions 0 responses (0, 0))
    as [[f s] | e]; [| reflexivity].
  cbn [bind fst snd].
  destruct (Rlt_dec (Rabs s) tolerance); [reflexivity |].
  destruct (pdiv f s) as [step | e]; [| reflexivity].
  cbn [bind].
  destruct (Rlt_dec (Rabs (theta - step - theta)) tolerance); [reflexivity |].
  apply IH.
Qed.

(** X7.  The questions whose index is not below the number of
    responses are never read: the estimate and the standard error are
    those obtained with the question list cut after [len(responses)]
    entries, errors included. *)
Theorem unadministered_questions_ignored
    (responses : list Response) (questions : list Question) :
  estimate_ability responses (firstn (List.length responses) questions)
  = estimate_ability responses questions
  /\ calculate_standard_error responses (firstn (List.length responses) questions)
     = calculate_standard_error responses questions.
Proof.
  assert (Hest : estimate_ability responses (firstn (List.length responses) questions)
                 = estimate_ability responses questions).
  { destruct responses as [| r rest]; [reflexivity |].
    unfold estimate_ability. apply newton_loop_questions_firstn. }
  split; [exact Hest |].
  unfold calculate_standard_error. rewrite Hest.
  destruct responses as [| r rest]; [reflexivity |].
  destruct (estimate_ability (r :: rest) questions) as [theta | e]; [| reflexivity].
  cbn [bind]. rewrite information_loop_questions_firstn by lia. reflexivity.
Qed.

(** ** Items without information *)

Lemma uninformative_terms (theta : R) (r : Response) (q : Question) :
  uninformative q ->
  second_deriv_term theta (r, q) = 0 /\ fisher_information theta q = 0.
Proof.
  intros Hu. unfold second_deriv_term, fisher_information.
  assert (Hk : (disc q)² * (upper q - guess q)² = 0).
  { destruct Hu as [Ha | Hcd].
    - rewrite Ha, Rsqr_0. ring.
    - rewrite Hcd. replace (upper q - upper q) with 0 by ring. rewrite Rsqr_0. ring. }
  rewrite Hk. unfold Rdiv. split; ring.
Qed.

Lemma uninformative_sums (pairs : list (Response * Question)) (theta : R) :
  Forall (fun rq => uninformative (snd rq)) pairs ->
  L2 pairs theta = 0 /\ information_total pairs theta = 0.
Proof.
  unfold L2, information_total.
  induction 1 as [| [r q] pairs Hu _ [IH2 IHI]].
  - now rewrite !sum_over_nil.
  - rewrite !sum_over_cons, IH2, IHI. cbn [snd] in Hu |- *.
    destruct (uninformative_terms theta r q Hu) as [-> ->]. split; ring.
Qed.

(** X8.  When every administered item carries no information
    ([a = 0] or [c = d]) and no division by [pq] fails, the responses
    do not matter: the estimate is [0] and the standard error is [1]. *)
Theorem uninformative_history (responses : list Response) (questions : list Question) :
  regular (administered responses questions) ->
  Forall (fun rq => uninformative (snd rq)) (administered responses questions) ->
  estimate_ability responses questions = Ok 0
  /\ calculate_standard_error responses questions = Ok 1.
Proof.
  intros Hreg Hun.
  assert (Hest : estimate_ability responses questions = Ok 0).
  { destruct responses as [| r rest]; [reflexivity |].
    unfold estimate_ability, max_iterations. cbn [newton_loop].
    rewrite derivatives_sums by exact Hreg. cbn [bind fst snd].
    rewrite (proj1 (uninformative_sums _ 0 Hun)), Rabs_R0.
    destruct (Rlt_dec 0 tolerance) as [_ | N]; [reflexivity |].
    exfalso. apply N. unfold tolerance. lra. }
  split; [exact Hest |].
  unfold calculate_standard_error. rewrite Hest.
  destruct responses as [| r rest]; [reflexivity |].
  cbn [bind]. rewrite information_loop_sums by exact Hreg.
  cbn [bind skipn]. fold (administered (r :: rest) questions).
  rewrite (proj2 (uninformative_sums _ 0 Hun)), Rplus_0_l.
  destruct (Req_dec_T 0 0) as [_ | N]; [reflexivity | contradiction].
Qed.

Lemma uninformative_history_witness :
  regular (administered [answer true] [item "q1" 0 0 0 1])
  /\ Forall (fun rq => uninformative (snd rq))
       (administered [answer true] [item "q1" 0 0 0 1])
  /\ estimate_ability [answer true] [item "q1" 0 0 0 1] = Ok 0
  /\ calculate_standard_error [answer true] [item "q1" 0 0 0 1] = Ok 1.
Proof.
  assert (Hreg : regular (administered [answer true] [item "q1" 0 0 0 1])).
  { apply well_formed_regular. constructor; [| constructor]. cbn [snd]. split.
    - unfold valid_item, disc, guess, upper; cbn. lra.
    - unfold flat_corner, guess, upper; cbn. lra. }
  assert (Hun : Forall (fun rq => uninformative (snd rq))
                  (administered [answer true] [item "q1" 0 0 0 1])).
  { constructor; [| constructor]. left. reflexivity. }
  split; [exact Hreg |]. split; [exact Hun |].
  exact (uninformative_history _ _ Hreg Hun).
Defined.

(** ** A bound on the standard error that ignores the responses *)

Lemma fisher_information_lower (theta : R) (q : Question) :
  valid_item q -> ~ flat_corner q ->
  4 * ((disc q)² * (upper q - guess q)²) <= fisher_information theta q.
Proof.
  intros Hv Hf. unfold fisher_information.
  pose proof (curve_pq_pos q theta Hv Hf) as Hpos.
  assert (Hquarter : curve_pq q theta <= 1 / 4).
  { unfold curve_pq. set (P := response_curve q theta).
    pose proof (Rle_0_sqr (P - 1 / 2)) as Hs. unfold Rsqr in Hs. nra. }
  assert (Hk : 0 <= (disc q)² * (upper q - guess q)²)
    by (apply Rmult_le_pos; apply Rle_0_sqr).
  assert (Hinv : 4 <= / curve_pq q theta).
  { replace 4 with (/ (1 / 4)) by lra. apply Rinv_le_contravar; lra. }
  unfold Rdiv. nra.
Qed.

Lemma information_total_lower (pairs : list (Response * Question)) (theta : R) :
  well_formed pairs -> 4 * slope_total pairs <= information_total pairs theta.
Proof.
  unfold slope_total, information_total.
  induction 1 as [| rq pairs [Hv Hf] _ IH].
  - rewrite !sum_over_nil. lra.
  - rewrite !sum_over_cons.
    pose proof (fisher_information_lower theta (snd rq) Hv Hf). lra.
Qed.

Lemma slope_total_nonneg (pairs : list (Response * Question)) :
  0 <= slope_total pairs.
Proof.
  unfold slope_total. induction pairs as [| rq pairs IH].
  - rewrite sum_over_nil. lra.
  - rewrite sum_over_cons.
    assert (0 <= (disc (snd rq))² * (upper (snd rq) - guess (snd rq))²)
      by (apply Rmult_le_pos; apply Rle_0_sqr).
    lra.
Qed.

(** X9.  On well-formed administered items a standard error that is
    returned is positive, and it is at most [1 / (2 sqrt S)], where [S]
    is the sum of [a^2 (d - c)^2] over the administered items, whenever
    [S > 0]: the bound depends on the item parameters only, not on the
    responses. *)
Theorem standard_error_bounded_by_slopes
    (responses : list Response) (questions : list Question) (se : R) :
  well_formed (administered responses questions) ->
  calculate_standard_error responses questions = Ok se ->
  0 < se
  /\ (0 < slope_total (administered responses questions) ->
      se <= 1 / (2 * sqrt (slope_total (administered responses questions)))).
Proof.
  intros Hwf Hrun.
  destruct responses as [| r rest].
  - cbn [calculate_standard_error] in Hrun. injection Hrun as <-.
    split; [lra |].
    unfold administered, slope_total. cbn [combine]. rewrite sum_over_nil. lra.
  - destruct (calculate_standard_error_returns r rest questions se Hrun)
      as (theta & _ & Hnonneg & ->).
    set (pairs := administered (r :: rest) questions) in *.
    pose proof (information_total_lower pairs theta Hwf) as Hlow.
    set (total := information_total pairs theta) in *.
    set (S := slope_total pairs) in *.
    destruct (Req_dec_T total 0) as [Hz | Hnz].
    + split; [lra | intros HS; lra].
    + assert (Hroot : 0 < sqrt total) by (apply sqrt_lt_R0; lra).
      split; [apply Rdiv_lt_0_compat; lra |].
      intros HS.
      assert (Hs : 0 < sqrt S) by now apply sqrt_lt_R0.
      assert (Hcmp : 2 * sqrt S <= sqrt total).
      { replace (2 * sqrt S) with (sqrt (4 * S)).
        - now apply sqrt_le_1_alt.
        - rewrite sqrt_mult by lra. f_equal.
          replace 4 with (2 * 2) by ring. apply sqrt_square. lra. }
      unfold Rdiv. rewrite !Rmult_1_l. apply Rinv_le_contravar; lra.
Qed.

Lemma standard_error_bounded_by_slopes_witness :
  well_formed (administered [answer true] [item "q1" 1 0 0 1])
  /\ exists se,
       calculate_standard_error [answer true] [item "q1" 1 0 0 1] = Ok se
       /\ 0 < se
       /\ (0 < slope_total (administered [answer true] [item "q1" 1 0 0 1]) ->
           se <= 1 / (2 * sqrt (slope_total
                                  (administered [answer true] [item "q1" 1 0 0 1])))).
Proof.
  pose proof (standard_pair_well_formed (answer true) "q1") as Hwf.
  split; [exact Hwf |].
  destruct (calculate_standard_error_total _ _ Hwf) as (theta & se & _ & Hrun).
  exists se. split; [exact Hrun |].
  exact (standard_error_bounded_by_slopes [answer true] [item "q1" 1 0 0 1] se Hwf Hrun).
Defined.

(** ** Termination decided by the item parameters *)

Lemma inverse_root_below (total thr : R) :
  0 < thr -> 1 <= thr * thr * total -> 1 / sqrt total <= thr.
Proof.
  intros Hthr Hle.
  assert (Hy : 0 < / thr) by now apply Rinv_0_lt_compat.
  assert (Hyy : / thr * / thr <= total).
  { assert (H1 : / thr * thr = 1) by (apply Rinv_l; lra).
    assert (H2 : 0 < / thr * / thr) by nra.
    assert (H3 : / thr * / thr * (thr * thr * total) = total).
    { replace (/ thr * / thr * (thr * thr * total))
        with ((/ thr * thr) * (/ thr * thr) * total) by ring.
      rewrite H1. ring. }
    rewrite <- H3. rewrite <- (Rmult_1_r (/ thr * / thr)) at 1.
    apply Rmult_le_compat_l; lra. }
  assert (Hroot : / thr <= sqrt total).
  { rewrite <- (sqrt_square (/ thr)) by lra. now apply sqrt_le_1_alt. }
  unfold Rdiv. rewrite Rmult_1_l.
  rewrite <- (Rinv_inv thr). apply Rinv_le_contravar; lra.
Qed.

(** X10.  When the administered items are well-formed, their number
    is at least [min_questions], the threshold is positive and the sum
    [S] of [a^2 (d - c)^2] over them satisfies
    [4 threshold^2 S >= 1], then a decision that [should_terminate]
    returns records [sufficient_precision] and stops the test, whatever
    the responses were. *)
Theorem precision_reached_whatever_the_responses (self : AdaptiveAlgorithm)
    (responses : list Response) (questions : list Question)
    (max_questions_arg : option Z) (decision : TerminationDecision) :
  well_formed (administered responses questions) ->
  (min_questions (termination_criteria self) <= Z.of_nat (List.length responses))%Z ->
  0 < standard_error_threshold (termination_criteria self) ->
  1 <= 4 * (standard_error_threshold (termination_criteria self))²
       * slope_total (administered responses questions) ->
  should_terminate self responses questions max_questions_arg = Ok decision ->
  In sufficient_precision (reasons decision)
  /\ decision_should_terminate decision = true.
Proof.
  intros Hwf Hmin Hthr Hslope Hrun.
  set (thr := standard_error_threshold (termination_criteria self)) in *.
  assert (HS : 0 < slope_total (administered responses questions)).
  { pose proof (slope_total_nonneg (administered responses questions)) as H0.
    destruct H0 as [H0 | H0]; [exact H0 |].
    rewrite <- H0 in Hslope. lra. }
  destruct responses as [| r rest].
  { exfalso. unfold administered, slope_total in HS. cbn [combine] in HS.
    rewrite sum_over_nil in HS. lra. }
  unfold should_terminate in Hrun.
  destruct (calculate_standard_error (r :: rest) questions) as [se | e] eqn:Hse;
    [| discriminate].
  destruct (estimate_ability (r :: rest) questions) as [ability | e];
    [| cbn [bind] in Hrun; discriminate].
  cbn [bind] in Hrun. fold thr in Hrun. apply ok_injective in Hrun. subst decision.
  destruct (calculate_standard_error_returns r rest questions se Hse)
    as (theta & _ & _ & ->).
  pose proof (information_total_lower _ theta Hwf) as Hlow.
  set (total := information_total (administered (r :: rest) questions) theta) in *.
  destruct (Req_dec_T total 0) as [Hz | Hnz]; [lra |].
  assert (Hbound : 1 / sqrt total <= thr).
  { apply inverse_root_below; [exact Hthr |]. unfold Rsqr in Hslope.
    assert (0 < thr * thr) by nra. nra. }
  cbn [reasons decision_should_terminate].
  destruct (Z.leb_spec (min_questions (termination_criteria self))
              (Z.of_nat (List.length (r :: rest)))) as [_ | Hlt]; [| lia].
  destruct (Rle_dec (1 / sqrt total) thr) as [_ | N]; [| contradiction].
  cbn [andb].
  destruct (or_default max_questions_arg (max_questions (termination_criteria self))
            <=? Z.of_nat (List.length (r :: rest)))%Z;
    cbn [app In List.length Nat.ltb Nat.leb]; split; auto.
Qed.

Lemma precision_reached_whatever_the_responses_witness :
  well_formed (administered [answer false] [item "q1" 1 0 0 1])
  /\ (min_questions (mkCriteria 50 1 1 0.95) <= Z.of_nat (List.length [answer false]))%Z
  /\ 0 < standard_error_threshold (mkCriteria 50 1 1 0.95)
  /\ 1 <= 4 * (standard_error_threshold (mkCriteria 50 1 1 0.95))²
          * slope_total (administered [answer false] [item "q1" 1 0 0 1])
  /\ exists decision,
       should_terminate (mkAlgorithm "IRT" "maximum_information" (mkCriteria 50 1 1 0.95))
         [answer false] [item "q1" 1 0 0 1] None = Ok decision
       /\ In sufficient_precision (reasons decision)
       /\ decision_should_terminate decision = true.
Proof.
  assert (Hmin : (min_questions (mkCriteria 50 1 1 0.95)
                  <= Z.of_nat (List.length [answer false]))%Z) by (cbn; lia).
  assert (Hthr : 0 < standard_error_threshold (mkCriteria 50 1 1 0.95))
    by (cbn; lra).
  assert (Hslope : 1 <= 4 * (standard_error_threshold (mkCriteria 50 1 1 0.95))²
                        * slope_total (administered [answer false] [item "q1" 1 0 0 1])).
  { unfold slope_total, administered, disc, guess, upper, Rsqr. cbn. lra. }
  pose proof (standard_pair_well_formed (answer false) "q1") as Hwf.
  split; [exact Hwf |].
  split; [exact Hmin |]. split; [exact Hthr |]. split; [exact Hslope |].
  destruct (calculate_standard_error_total _ _ Hwf) as (theta & se & Hest & Hse).
  destruct (should_terminate_returns
              (mkAlgorithm "IRT" "maximum_information" (mkCriteria 50 1 1 0.95))
              _ _ None theta se Hest Hse) as (decision & Hrun & _).
  exists decision. split; [exact Hrun |].
  exact (precision_reached_whatever_the_responses
           (mkAlgorithm "IRT" "maximum_information" (mkCriteria 50 1 1 0.95))
           [answer false] [item "q1" 1 0 0 1] None decision
           Hwf Hmin Hthr Hslope Hrun).
Defined.

(** ** [generate_adaptive_questions] *)

Module GeneratorFacts.
Import Generator.

Lemma generation_loop_map (subject : string) (topics : list string) (remaining : nat) :
  forall (i : nat) (questions : list QuestionData),
    generation_loop subject topics remaining i questions
    = questions ++ map (question_data subject topics) (seq i remaining).
Proof.
  induction remaining as [| k IH]; intros i questions; cbn [generation_loop seq map].
  - now rewrite app_nil_r.
  - rewrite IH, <- app_assoc. reflexivity.
Qed.

Lemma generate_is_map (user_id subject : string) (topics : list string)
    (config : Config) :
  generate_adaptive_questions user_id subject topics config
  = map (question_data subject topics)
      (seq 0 (Z.to_nat (get_or (total_questions config) 20%Z))).
Proof.
  unfold generate_adaptive_questions. now rewrite generation_loop_map.
Qed.

Lemma append_prefix_injective (prefix a b : string) :
  (prefix ++ a)%string = (prefix ++ b)%string -> a = b.
Proof.
  induction prefix as [| c prefix IH]; cbn; intros H; [exact H |].
  injection H as H. now apply IH.
Qed.

Lemma decimal_injective (n m : nat) : decimal n = decimal m -> n = m.
Proof.
  unfold decimal. intros H.
  apply DecimalNat.Unsigned.to_uint_inj.
  assert (Hs : Some (Nat.to_uint n) = Some (Nat.to_uint m)).
  { rewrite <- !NilEmpty.usu. now rewrite H. }
  congruence.
Qed.

Lemma question_id_injective (subject : string) (topics : list string) (i j : nat) :
  id (question_data subject topics i) = id (question_data subject topics j) -> i = j.
Proof.
  cbn [question_data id]. intros H.
  apply append_prefix_injective, decimal_injective in H. lia.
Qed.

Lemma topic_for_member (subject : string) (topics : list string) (i : nat) :
  topics <> [] -> In (topic_for subject topics i) topics.
Proof.
  intros Hne. unfold topic_for. destruct topics as [| t ts]; [contradiction |].
  apply nth_In. apply Nat.mod_upper_bound. cbn. lia.
Qed.

End GeneratorFacts.

(** X11.  [generate_adaptive_questions] returns as many questions as
    [config['total_questions']] asks for (20 when the key is absent,
    none when the number is not positive), and their ids are pairwise
    distinct. *)
Theorem generated_questions_count_and_ids (user_id subject : string)
    (topics : list string) (config : Generator.Config) :
  List.length (Generator.generate_adaptive_questions user_id subject topics config)
  = Z.to_nat (get_or (Generator.total_questions config) 20%Z)
  /\ NoDup (map Generator.id
              (Generator.generate_adaptive_questions user_id subject topics config)).
Proof.
  rewrite GeneratorFacts.generate_is_map.
  set (n := Z.to_nat (get_or (Generator.total_questions config) 20%Z)).
  split.
  - now rewrite length_map, length_seq.
  - rewrite map_map. apply Finite.Injective_map_NoDup_in; [| apply seq_NoDup].
    intros i j _ _ H. exact (GeneratorFacts.question_id_injective subject topics i j H).
Qed.

(** X12.  The topics are handed out in rotation: with no topic every
    generated question is about the subject; otherwise every generated
    question is about one of the topics, and as soon as at least
    [len(topics)] questions are asked for, every topic has a question. *)
Theorem generated_questions_cover_topics (user_id subject : string)
    (topics : list string) (config : Generator.Config) :
  let generated :=
    Generator.generate_adaptive_questions user_id subject topics config in
  (topics = [] -> forall q, In q generated -> Generator.topic q = subject)
  /\ (topics <> [] ->
      (forall q, In q generated -> In (Generator.topic q) topics)
      /\ ((List.length topics
           <= Z.to_nat (get_or (Generator.total_questions config) 20%Z))%nat ->
          forall t, In t topics ->
                    exists q, In q generated /\ Generator.topic q = t)).
Proof.
  cbv zeta. rewrite GeneratorFacts.generate_is_map.
  set (n := Z.to_nat (get_or (Generator.total_questions config) 20%Z)).
  split.
  - intros -> q Hq. apply in_map_iff in Hq. destruct Hq as (i & <- & _). reflexivity.
  - intros Hne. split.
    + intros q Hq. apply in_map_iff in Hq. destruct Hq as (i & <- & _).
      cbn [Generator.question_data Generator.topic].
      now apply GeneratorFacts.topic_for_member.
    + intros Hlen t Ht.
      destruct (In_nth topics t ""%string Ht) as (j & Hj & Hnth).
      exists (Generator.question_data subject topics j). split.
      * apply in_map. apply in_seq. lia.
      * cbn [Generator.question_data Generator.topic]. unfold Generator.topic_for.
        destruct topics as [| t0 ts]; [contradiction |].
        rewrite Nat.mod_small by exact Hj. exact Hnth.
Qed.

Lemma generated_questions_cover_topics_witness :
  let generated :=
    Generator.generate_adaptive_questions "u1" "math" ["algebra"%string]
      (Generator.mkConfig (Some 1%Z)) in
  ["algebra"%string] <> []
  /\ (List.length ["algebra"%string] <= Z.to_nat 1)%nat
  /\ (forall q, In q generated -> In (Generator.topic q) ["algebra"%string])
  /\ (forall t, In t ["algebra"%string] ->
                exists q, In q generated /\ Generator.topic q = t).
Proof.
  cbv zeta.
  assert (Hne : ["algebra"%string] <> []) by discriminate.
  assert (Hlen : (List.length ["algebra"%string] <= Z.to_nat 1)%nat) by (cbn; lia).
  destruct (generated_questions_cover_topics "u1" "math" ["algebra"%string]
              (Generator.mkConfig (Some 1%Z))) as [_ Hcover].
  destruct (Hcover Hne) as [Hmember Hall].
  split; [exact Hne |]. split; [exact Hlen |].
  split; [exact Hmember | exact (Hall Hlen)].
Defined.

(** ** Range and repetition of the psychometric update *)

Module UpdateRange.
Import QuestionModel.

Lemma count_correct_le_length (l : list Response) :
  (count_correct l <= List.length l)%nat.
Proof. unfold count_correct. apply filter_length_le. Qed.

Lemma rate_in_unit_interval (k n : nat) :
  (0 < n)%nat -> (k <= n)%nat -> 0 <= INR k / INR n <= 1.
Proof.
  intros Hn Hk.
  assert (Hpos : 0 < INR n) by (apply lt_0_INR; lia).
  assert (Hle : INR k <= INR n) by now apply le_INR.
  pose proof (pos_INR k) as Hk0.
  split.
  - apply Rmult_le_pos; [exact Hk0 | left; now apply Rinv_0_lt_compat].
  - apply Rmult_le_reg_r with (INR n); [exact Hpos |].
    unfold Rdiv. rewrite Rmult_assoc, Rinv_l by lra. lra.
Qed.

(** The value computed on a non-empty batch, with the sizes of the two
    thirds made explicit. *)
Lemma update_psychometrics_value (p : Psychometrics) (r : Response)
    (rest : list Response) :
  let responses := r :: rest in
  let n := List.length responses in
  let ordered := sorted_descending responses in
  update_psychometrics p responses
  = Ok {| discrimination :=
            if (0 <? n / 3)%nat
            then INR (count_correct (firstn ((n + 2) / 3) ordered)) / INR ((n + 2) / 3)
                 - INR (count_correct (skipn (n - n / 3) ordered)) / INR (n / 3)
            else discrimination p;
          difficulty := INR (count_correct responses) / INR n;
          guessing := guessing p;
          upper_asymptote := upper_asymptote p |}.
Proof.
  cbv zeta. set (responses := r :: rest). set (n := List.length responses).
  assert (Hn : (0 < n)%nat) by (unfold n, responses; cbn; lia).
  assert (Htop : (0 < (n + 2) / 3)%nat).
  { pose proof (UpdateFacts.ceiling_third n). lia. }
  unfold update_psychometrics. fold responses.
  change (match responses with
          | [] => Ok p
          | _ :: _ => ?body
          end) with body.
  rewrite UpdateFacts.sorted_descending_length. fold n.
  rewrite UpdateFacts.pdiv_count by exact Hn.
  cbn [bind discrimination difficulty guessing upper_asymptote].
  destruct (Nat.ltb_spec 0 ((n + 2) / 3)) as [_ | H]; [| lia].
  destruct (Nat.ltb_spec 0 (n / 3)) as [Hbottom | Hbottom]; cbn [andb];
    [| reflexivity].
  rewrite !UpdateFacts.pdiv_count by assumption. cbn [bind].
  unfold slice_last. rewrite UpdateFacts.sorted_descending_length. fold n.
  destruct (Nat.eqb_spec (n / 3) 0) as [E | _]; [lia | reflexivity].
Qed.

End UpdateRange.

Lemma update_psychometrics_returns (p : QuestionModel.Psychometrics)
    (r : Response) (rest : list Response) :
  exists p', QuestionModel.update_psychometrics p (r :: rest) = Ok p'.
Proof.
  eexists. exact (UpdateRange.update_psychometrics_value p r rest).
Qed.

(** X13.  On a non-empty batch [update_psychometrics] returns without
    failing, with a difficulty in [[0, 1]] and, when the batch has
    three or more responses, a discrimination in [[-1, 1]]. *)
Theorem updated_psychometrics_range (p : QuestionModel.Psychometrics)
    (r : Response) (rest : list Response) :
  exists p',
    QuestionModel.update_psychometrics p (r :: rest) = Ok p'
    /\ 0 <= QuestionModel.difficulty p' <= 1
    /\ ((3 <= List.length (r :: rest))%nat ->
        -1 <= QuestionModel.discrimination p' <= 1).
Proof.
  pose proof (UpdateRange.update_psychometrics_value p r rest) as Hvalue.
  cbv zeta in Hvalue.
  set (responses := r :: rest) in *. set (n := List.length responses) in *.
  set (ordered := QuestionModel.sorted_descending responses) in *.
  assert (Hn : (0 < n)%nat) by (unfold n, responses; cbn; lia).
  eexists. split; [exact Hvalue |].
  cbn [QuestionModel.difficulty QuestionModel.discrimination]. split.
  - apply UpdateRange.rate_in_unit_interval; [exact Hn |].
    apply UpdateRange.count_correct_le_length.
  - intros H3.
    pose proof (UpdateFacts.ceiling_third n) as Hceil.
    pose proof (UpdateFacts.floor_third n) as Hfloor.
    assert (Hlen : List.length ordered = n)
      by apply UpdateFacts.sorted_descending_length.
    destruct (Nat.ltb_spec 0 (n / 3)) as [Hbottom | Hbottom]; [| lia].
    assert (Htop : 0 <= INR (QuestionModel.count_correct
                               (firstn ((n + 2) / 3) ordered))
                        / INR ((n + 2) / 3) <= 1).
    { apply UpdateRange.rate_in_unit_interval; [lia |].
      etransitivity; [apply UpdateRange.count_correct_le_length |].
      apply firstn_le_length. }
    assert (Hlow : 0 <= INR (QuestionModel.count_correct
                               (skipn (n - n / 3) ordered))
                        / INR (n / 3) <= 1).
    { apply UpdateRange.rate_in_unit_interval; [exact Hbottom |].
      etransitivity; [apply UpdateRange.count_correct_le_length |].
      rewrite length_skipn, Hlen. lia. }
    lra.
Qed.

Lemma updated_psychometrics_range_witness :
  exists p',
    QuestionModel.update_psychometrics (QuestionModel.mkPsychometrics 0.5 0.5 0.25 1)
      [answer_at true 1; answer_at false 0; answer_at true 2] = Ok p'
    /\ 0 <= QuestionModel.difficulty p' <= 1
    /\ (3 <= List.length [answer_at true 1; answer_at false 0; answer_at true 2])%nat
    /\ -1 <= QuestionModel.discrimination p' <= 1.
Proof.
  destruct (updated_psychometrics_range (QuestionModel.mkPsychometrics 0.5 0.5 0.25 1)
              (answer_at true 1) [answer_at false 0; answer_at true 2])
    as (p' & Hrun & Hdiff & Hdisc).
  assert (H3 : (3 <= List.length [answer_at true 1; answer_at false 0;
                                   answer_at true 2])%nat) by (cbn; lia).
  exists p'. split; [exact Hrun |]. split; [exact Hdiff |].
  split; [exact H3 | exact (Hdisc H3)].
Defined.

(** X14.  The update overwrites and does not accumulate: applying
    [update_psychometrics] again with the same batch to the item it
    returned gives that item again. *)
Theorem update_psychometrics_idempotent (p p' : QuestionModel.Psychometrics)
    (responses : list Response) :
  QuestionModel.update_psychometrics p responses = Ok p' ->
  QuestionModel.update_psychometrics p' responses = Ok p'.
Proof.
  destruct responses as [| r rest].
  - cbn. intros [= ->]. reflexivity.
  - intros H. rewrite UpdateRange.update_psychometrics_value in H. cbv zeta in H.
    apply (f_equal (fun x => match x with Ok v => v | Raise _ => p end)) in H.
    cbv beta iota in H. rewrite <- H.
    rewrite UpdateRange.update_psychometrics_value. cbv zeta.
    cbn [QuestionModel.discrimination QuestionModel.guessing
           QuestionModel.upper_asymptote].
    destruct (0 <? List.length (r :: rest) / 3)%nat; reflexivity.
Qed.

Lemma update_psychometrics_idempotent_witness :
  exists p',
    QuestionModel.update_psychometrics (QuestionModel.mkPsychometrics 0.5 0.5 0.25 1)
      [answer true] = Ok p'
    /\ QuestionModel.update_psychometrics p' [answer true] = Ok p'.
Proof.
  destruct (update_psychometrics_returns
              (QuestionModel.mkPsychometrics 0.5 0.5 0.25 1) (answer true) [])
    as (p' & Hrun).
  exists p'. split; [exact Hrun |].
  exact (update_psychometrics_idempotent _ _ _ Hrun).
Defined.

(** The lower end is reached: the most able examinee wrong and the
    least able right give discrimination [-1], below the range
    [[0, 1]] declared for the field. *)
Lemma negative_discrimination_reached (p : QuestionModel.Psychometrics) :
  QuestionModel.update_psychometrics p
    [answer_at false 2; answer_at true 1; answer_at true 0]
  = Ok {| QuestionModel.discrimination := -1;
          QuestionModel.difficulty := 2 / 3;
          QuestionModel.guessing := QuestionModel.guessing p;
          QuestionModel.upper_asymptote := QuestionModel.upper_asymptote p |}.
Proof.
  assert (Hsort : QuestionModel.sorted_descending
                    [answer_at false 2; answer_at true 1; answer_at true 0]
                  = [answer_at false 2; answer_at true 1; answer_at true 0]).
  { repeat (cbn [QuestionModel.sorted_descending QuestionModel.insert_descending
                   QuestionModel.ability_key answer_at user_ability get_or];
            match goal with
            | |- context [Rle_dec ?x ?y] => destruct (Rle_dec x y); try lra
            end).
    reflexivity. }
  unfold QuestionModel.update_psychometrics. rewrite Hsort.
  cbn -[INR Rdiv Rminus pdiv].
  rewrite !pdiv_ok by (cbn; lra). cbn [bind].
  f_equal. f_equal; cbn; lra.
Qed.

(** ** Usage statistics and the scores derived from them *)

Module DocumentFacts.
Import QuestionDocument.

(** The sum of the recorded times and the number of correct responses. *)
Lemma record_responses_invariant (events : list (bool * R * Z)) :
  forall (self : Question),
    (0 <= times_used (usage_stats self))%Z ->
    exists self',
      record_responses self events = Ok self'
      /\ times_used (usage_stats self')
         = (times_used (usage_stats self) + Z.of_nat (List.length events))%Z
      /\ correct_answers (usage_stats self')
         = (correct_answers (usage_stats self)
            + Z.of_nat (List.length (filter (fun e => fst (fst e)) events)))%Z
      /\ average_time_spent (usage_stats self') * IZR (times_used (usage_stats self'))
         = average_time_spent (usage_stats self) * IZR (times_used (usage_stats self))
           + sum_over (fun e => snd (fst e)) events
      /\ difficulty_score self' = difficulty_score self
      /\ psychometrics self' = psychometrics self.
Proof.
  induction events as [| [[correct time_spent] now] rest IH]; intros self Hused.
  - exists self. split; [reflexivity |]. cbn [List.length filter Z.of_nat].
    rewrite sum_over_nil, !Z.add_0_r. repeat split; lra.
  - cbn [record_responses]. unfold update_usage_stats.
    set (n := times_used (usage_stats self)) in *.
    assert (Hnz : IZR (n + 1) <> 0) by (apply not_0_IZR; lia).
    rewrite pdiv_ok by exact Hnz. cbn [bind].
    match goal with
    | |- context [record_responses ?q rest] =>
        destruct (IH q) as (self' & Hrun & Hn & Hc & Ha & Hd & Hp)
    end.
    { cbn [usage_stats times_used]. lia. }
    cbn [usage_stats times_used correct_answers average_time_spent
           difficulty_score psychometrics] in Hn, Hc, Ha, Hd, Hp.
    exists self'. split; [exact Hrun |].
    split; [rewrite Hn; cbn [List.length]; lia |].
    split.
    { rewrite Hc. cbn [filter fst]. destruct correct; cbn [List.length]; lia. }
    split; [| split; assumption].
    rewrite Ha, sum_over_cons. cbn [fst snd].
    replace (n + 1 - 1)%Z with n by lia.
    field_simplify; [| exact Hnz]. lra.
Qed.

End DocumentFacts.

(** X15.  Recording a non-empty sequence of responses on a question
    that was never used, one [update_usage_stats] call per response,
    never fails and leaves: [times_used] equal to the number of
    responses, [correct_answers] equal to the number of correct ones
    (so never above [times_used]), and [average_time_spent] equal to
    the arithmetic mean of the recorded times. *)
Theorem usage_stats_running_mean (score : R) (p : QuestionModel.Psychometrics)
    (events : list (bool * R * Z)) :
  events <> [] ->
  exists self',
    QuestionDocument.record_responses (QuestionDocument.fresh score p) events
    = Ok self'
    /\ QuestionDocument.times_used (QuestionDocument.usage_stats self')
       = Z.of_nat (List.length events)
    /\ QuestionDocument.correct_answers (QuestionDocument.usage_stats self')
       = Z.of_nat (List.length (filter (fun e => fst (fst e)) events))
    /\ (0 <= QuestionDocument.correct_answers (QuestionDocument.usage_stats self')
        <= QuestionDocument.times_used (QuestionDocument.usage_stats self'))%Z
    /\ QuestionDocument.average_time_spent (QuestionDocument.usage_stats self')
       = sum_over (fun e => snd (fst e)) events / INR (List.length events).
Proof.
  intros Hne.
  destruct (DocumentFacts.record_responses_invariant events
              (QuestionDocument.fresh score p)) as (self' & Hrun & Hn & Hc & Ha & _).
  { cbn. lia. }
  cbn [QuestionDocument.fresh QuestionDocument.usage_stats
         QuestionDocument.times_used QuestionDocument.correct_answers
         QuestionDocument.average_time_spent] in Hn, Hc, Ha.
  rewrite Z.add_0_l in Hn, Hc.
  exists self'. split; [exact Hrun |]. split; [exact Hn |]. split; [exact Hc |].
  split.
  { rewrite Hn, Hc. split; [lia |]. apply inj_le, filter_length_le. }
  rewrite Hn, <- INR_IZR_INZ in Ha.
  assert (Hlen : 0 < INR (List.length events)).
  { apply lt_0_INR. destruct events; [contradiction | cbn; lia]. }
  apply Rmult_eq_reg_r with (INR (List.length events)); [| lra].
  rewrite Ha. field. lra.
Qed.

Lemma usage_stats_running_mean_witness :
  [(true, 30, 0%Z); (false, 50, 1%Z)] <> []
  /\ exists self',
       QuestionDocument.record_responses
         (QuestionDocument.fresh 50 (QuestionModel.mkPsychometrics 0.5 0.5 0.25 1))
         [(true, 30, 0%Z); (false, 50, 1%Z)] = Ok self'
       /\ QuestionDocument.times_used (QuestionDocument.usage_stats self') = 2%Z
       /\ QuestionDocument.correct_answers (QuestionDocument.usage_stats self') = 1%Z
       /\ QuestionDocument.average_time_spent (QuestionDocument.usage_stats self')
          = sum_over (fun e => snd (fst e)) [(true, 30, 0%Z); (false, 50, 1%Z)]
            / INR 2.
Proof.
  assert (Hne : [(true, 30, 0%Z); (false, 50, 1%Z)] <> []) by discriminate.
  split; [exact Hne |].
  destruct (usage_stats_running_mean 50 (QuestionModel.mkPsychometrics 0.5 0.5 0.25 1)
              [(true, 30, 0%Z); (false, 50, 1%Z)] Hne)
    as (self' & Hrun & Hn & Hc & _ & Ha).
  exists self'. split; [exact Hrun |]. split; [exact Hn |].
  split; [exact Hc | exact Ha].
Defined.

Lemma accuracy_in_unit_interval (c t : Z) :
  (0 <= c <= t)%Z -> (0 < t)%Z -> 0 <= IZR c / IZR t <= 1.
Proof.
  intros [Hc Hct] Ht.
  assert (Hpos : 0 < IZR t) by (apply IZR_lt; lia).
  assert (Hc0 : 0 <= IZR c) by (apply IZR_le; lia).
  assert (Hle : IZR c <= IZR t) by now apply IZR_le.
  split.
  - apply Rmult_le_pos; [exact Hc0 | left; now apply Rinv_0_lt_compat].
  - apply Rmult_le_reg_r with (IZR t); [exact Hpos |].
    unfold Rdiv. rewrite Rmult_assoc, Rinv_l by lra. lra.
Qed.

(** X16.  For a question within the bounds declared by its model,
    [calculate_effectiveness] never fails: it is [0] for a question
    that was never used, and lies between [10] and [100] once the
    question has been used. *)
Theorem effectiveness_range (self : QuestionDocument.Question) :
  QuestionDocument.within_bounds self ->
  exists e,
    QuestionDocument.calculate_effectiveness self = Ok e
    /\ (QuestionDocument.times_used (QuestionDocument.usage_stats self) = 0%Z -> e = 0)
    /\ ((0 < QuestionDocument.times_used (QuestionDocument.usage_stats self))%Z ->
        10 <= e <= 100).
Proof.
  intros (Hscore & Hdisc & Hdiff & Hcount).
  unfold QuestionDocument.calculate_effectiveness.
  destruct (Z.eqb_spec (QuestionDocument.times_used
                          (QuestionDocument.usage_stats self)) 0) as [Hz | Hnz].
  - exists 0. split; [reflexivity |]. split; [reflexivity | lia].
  - assert (Hused : (0 < QuestionDocument.times_used
                          (QuestionDocument.usage_stats self))%Z) by lia.
    rewrite pdiv_ok by (apply not_0_IZR; lia). cbn [bind].
    eexists. split; [reflexivity |]. split; [contradiction |]. intros _.
    pose proof (accuracy_in_unit_interval _ _ Hcount Hused) as Hacc.
    assert (Habs : 0 <= Rabs (QuestionModel.difficulty
                                (QuestionDocument.psychometrics self) - 0.5) <= 0.5).
    { split; [apply Rabs_pos |]. apply Rabs_le. lra. }
    lra.
Qed.

Lemma document_within_bounds :
  QuestionDocument.within_bounds
    (QuestionDocument.mkQuestion 50 (QuestionModel.mkPsychometrics 0.5 0.5 0.25 1)
       (QuestionDocument.mkUsageStats 4 3 20 None)).
Proof.
  unfold QuestionDocument.within_bounds. cbn. repeat split; try lra; lia.
Qed.

Lemma effectiveness_range_witness :
  QuestionDocument.within_bounds
    (QuestionDocument.mkQuestion 50 (QuestionModel.mkPsychometrics 0.5 0.5 0.25 1)
       (QuestionDocument.mkUsageStats 4 3 20 None))
  /\ (0 < 4)%Z
  /\ exists e,
       QuestionDocument.calculate_effectiveness
         (QuestionDocument.mkQuestion 50 (QuestionModel.mkPsychometrics 0.5 0.5 0.25 1)
            (QuestionDocument.mkUsageStats 4 3 20 None)) = Ok e
       /\ 10 <= e <= 100.
Proof.
  split; [exact document_within_bounds |]. split; [lia |].
  destruct (effectiveness_range _ document_within_bounds) as (e & Hrun & _ & Hrange).
  exists e. split; [exact Hrun |]. apply Hrange. cbn. lia.
Defined.

(** X17.  For a question within the bounds declared by its model,
    [get_adaptive_difficulty] never fails and returns a value between
    [0] and [100]; for a question that was never used it is
    [0.4 difficulty_score + 40 difficulty + 10]. *)
Theorem adaptive_difficulty_range (self : QuestionDocument.Question) :
  QuestionDocument.within_bounds self ->
  exists v,
    QuestionDocument.get_adaptive_difficulty self = Ok v
    /\ 0 <= v <= 100
    /\ (QuestionDocument.times_used (QuestionDocument.usage_stats self) = 0%Z ->
        v = 0.4 * QuestionDocument.difficulty_score self
            + 40 * QuestionModel.difficulty (QuestionDocument.psychometrics self)
            + 10).
Proof.
  intros (Hscore & Hdisc & Hdiff & Hcount).
  unfold QuestionDocument.get_adaptive_difficulty.
  destruct (Z.ltb_spec 0 (QuestionDocument.times_used
                            (QuestionDocument.usage_stats self))) as [Hused | Hunused].
  - rewrite pdiv_ok by (apply not_0_IZR; lia). cbn [bind].
    eexists. split; [reflexivity |].
    pose proof (accuracy_in_unit_interval _ _ Hcount Hused) as Hacc.
    split; [lra | lia].
  - cbn [bind]. eexists. split; [reflexivity |]. split; [lra | intros _; lra].
Qed.

Lemma adaptive_difficulty_range_witness :
  QuestionDocument.within_bounds
    (QuestionDocument.mkQuestion 50 (QuestionModel.mkPsychometrics 0.5 0.5 0.25 1)
       (QuestionDocument.mkUsageStats 4 3 20 None))
  /\ exists v,
       QuestionDocument.get_adaptive_difficulty
         (QuestionDocument.mkQuestion 50 (QuestionModel.mkPsychometrics 0.5 0.5 0.25 1)
            (QuestionDocument.mkUsageStats 4 3 20 None)) = Ok v
       /\ 0 <= v <= 100.
Proof.
  split; [exact document_within_bounds |].
  destruct (adaptive_difficulty_range _ document_within_bounds) as (v & Hrun & Hrange & _).
  exists v. split; [exact Hrun | exact Hrange].
Defined.

(** ** Items the [maximum_information] strategy never returns *)

(** X18.  With the [maximum_information] strategy, when no division
    fails on the unanswered questions, a question that carries no
    information ([a = 0] or [c = d]) is never returned, and a pool
    whose unanswered questions are all of that kind yields [None]. *)
Theorem uninformative_items_never_selected (self : AdaptiveAlgorithm) (theta : R)
    (available_questions : list Question) (answered_questions : list string) :
  question_selection_strategy self = "maximum_information"%string ->
  Forall (fun q => curve_pq q theta <> 0)
    (filter (not_answered answered_questions) available_questions) ->
  (forall q,
      select_next_question self theta available_questions answered_questions
      = Ok (Some q) ->
      ~ uninformative q)
  /\ (Forall uninformative
        (filter (not_answered answered_questions) available_questions) ->
      select_next_question self theta available_questions answered_questions
      = Ok None).
Proof.
  intros Hstrategy Hreg.
  destruct (filter (not_answered answered_questions) available_questions)
    as [| u us] eqn:Hu.
  - assert (Hnone : select_next_question self theta available_questions
                      answered_questions = Ok None).
    { unfold select_next_question. rewrite Hu.
      destruct available_questions; reflexivity. }
    split; [intros q Hq; congruence | intros _; exact Hnone].
  - assert (Hne : filter (not_answered answered_questions) available_questions <> [])
      by (rewrite Hu; discriminate).
    rewrite <- Hu in Hreg.
    destruct (select_maximum_information self theta available_questions
                answered_questions Hstrategy Hne Hreg)
      as (result & Hrun
          & [[Hres Hall] | (before & q & after & Hl & Hres & Hq & Hb & Ha)]).
    + subst result. split; [intros q Hq; congruence | intros _; exact Hrun].
    + subst result. split.
      * intros q' Hq' Hun. rewrite Hrun in Hq'. injection Hq' as <-.
        rewrite (proj2 (uninformative_terms theta (answer true) q Hun)) in Hq. lra.
      * intros Hall. exfalso. rewrite Hu in Hl. rewrite Hl in Hall.
        apply Forall_elt in Hall.
        rewrite (proj2 (uninformative_terms theta (answer true) q Hall)) in Hq. lra.
Qed.

Lemma uninformative_items_never_selected_witness :
  question_selection_strategy init = "maximum_information"%string
  /\ Forall (fun q => curve_pq q 0 <> 0)
       (filter (not_answered []) [item "q1" 0 0.5 0.25 1])
  /\ Forall uninformative (filter (not_answered []) [item "q1" 0 0.5 0.25 1])
  /\ select_next_question init 0 [item "q1" 0 0.5 0.25 1] [] = Ok None.
Proof.
  assert (Hreg : Forall (fun q => curve_pq q 0 <> 0)
                   (filter (not_answered []) [item "q1" 0 0.5 0.25 1])).
  { constructor; [| constructor]. apply Rgt_not_eq, Rlt_gt, curve_pq_pos.
    - unfold valid_item, disc, guess, upper; cbn. lra.
    - unfold flat_corner, guess, upper; cbn. lra. }
  assert (Hun : Forall uninformative
                  (filter (not_answered []) [item "q1" 0 0.5 0.25 1])).
  { constructor; [| constructor]. left. reflexivity. }
  split; [reflexivity |]. split; [exact Hreg |]. split; [exact Hun |].
  exact (proj2 (uninformative_items_never_selected init 0
                  [item "q1" 0 0.5 0.25 1] [] eq_refl Hreg) Hun).
Defined.

(** ** Sign of the estimate on uniform histories *)

(** X19.  On well-formed administered items an estimate that is
    returned has the sign of a uniform history: it is at least [0] when
    every administered response is correct and at most [0] when every
    administered response is incorrect, however many items there
    are. *)
Theorem uniform_history_sign
    (responses : list Response) (questions : list Question) (theta : R) :
  well_formed (administered responses questions) ->
  estimate_ability responses questions = Ok theta ->
  (Forall (fun rq => outcome (fst rq) = 1)
     (administered responses questions) -> 0 <= theta)
  /\ (Forall (fun rq => outcome (fst rq) = 0)
        (administered responses questions) -> theta <= 0).
Proof.
  intros Hwf Hrun.
  apply estimate_ability_returns in Hrun.
  exact (newton_raphson_direction _ Hwf _ _ _ Hrun).
Qed.

Lemma uniform_history_sign_witness :
  well_formed (administered [answer true; answer true]
                 [item "q1" 1 0 0 1; item "q2" 0.5 1 0.25 1])
  /\ Forall (fun rq => outcome (fst rq) = 1)
       (administered [answer true; answer true]
          [item "q1" 1 0 0 1; item "q2" 0.5 1 0.25 1])
  /\ exists theta,
       estimate_ability [answer true; answer true]
         [item "q1" 1 0 0 1; item "q2" 0.5 1 0.25 1] = Ok theta
       /\ 0 <= theta.
Proof.
  assert (Hwf : well_formed (administered [answer true; answer true]
                               [item "q1" 1 0 0 1; item "q2" 0.5 1 0.25 1])).
  { constructor; [exact (standard_item_valid "q1") |].
    constructor; [| constructor]. cbn [snd]. split.
    - unfold valid_item, disc, guess, upper; cbn. lra.
    - unfold flat_corner, guess, upper; cbn. lra. }
  assert (Hall : Forall (fun rq => outcome (fst rq) = 1)
                   (administered [answer true; answer true]
                      [item "q1" 1 0 0 1; item "q2" 0.5 1 0.25 1])).
  { repeat constructor. }
  split; [exact Hwf |]. split; [exact Hall |].
  destruct (estimate_ability_iterates _ _ (well_formed_regular _ Hwf))
    as (theta & Hrun & _).
  exists theta. split; [exact Hrun |].
  exact (proj1 (uniform_history_sign _ _ theta Hwf Hrun) Hall).
Defined.
